(** * hapi + yar + Redis: session authentication and the remember-me TTLs

    A shallow embedding of [src/index.js]: the authentication scheme
    [my-scheme], the route table with its handlers, and the [onPreResponse]
    extension that promotes the cache entry and the cookie of a remembered
    session to the one-year TTL.

    The libraries the program calls (hapi's request lifecycle, yar's session
    object, the catbox-redis engine) are not part of the repository; they are
    modelled at their interface, each such definition saying so. *)

From Stdlib Require Import ZArith List Bool Lia.
From stdpp Require Import base option gmap strings.
Import ListNotations.

Local Open Scope Z_scope.
Local Open Scope string_scope.
Set Warnings "-register-all".

(** ** JavaScript values *)

Module JS.

(** The values that travel through the program: request payloads parsed
    from JSON or form bodies, and the session data kept by yar. *)
Inductive JSValue : Type :=
| JUndefined
| JNull
| JBool (b : bool)
| JNum (n : Z)
| JStr (s : string)
| JObj (props : list (string * JSValue)).

Inductive Error : Type :=
| TypeError
| Unauthorized (message : string)    (* Boom.unauthorized(message) *)
| AssertionError                     (* a failed assertion of hapi's toolkit *)
| NotFound.                          (* no route matches *)

(** Outcome of an expression or a function body that may throw. *)
Inductive result (A : Type) : Type :=
| Ok (a : A)
| Throw (e : Error).
Arguments Ok {A} a.
Arguments Throw {A} e.

(** Sequencing: a throw skips the rest of the body. *)
#[global] Instance result_bind : MBind result := fun A B k r =>
  match r with
  | Ok a => k a
  | Throw e => Throw e
  end.

(** ToBoolean: what [if (v)], [v && w] and [!!v] test. *)
Definition truthy (v : JSValue) : bool :=
  match v with
  | JUndefined | JNull => false
  | JBool b => b
  | JNum n => negb (n =? 0)%Z
  | JStr s => negb (String.eqb s "")
  | JObj _ => true
  end.

Fixpoint lookupProp (k : string) (props : list (string * JSValue)) : JSValue :=
  match props with
  | [] => JUndefined
  | (k', v) :: rest => if String.eqb k k' then v else lookupProp k rest
  end.

(** Own-property read that cannot throw: [undefined] for a missing key and
    for a primitive (the keys read here, [auth], [username], [remember],
    [yarring], [id], name no built-in property of a primitive). *)
Definition prop (v : JSValue) (k : string) : JSValue :=
  match v with
  | JObj props => lookupProp k props
  | _ => JUndefined
  end.

(** [v.k]: reading a property of [undefined] or [null] throws. *)
Definition getProp (v : JSValue) (k : string) : result JSValue :=
  match v with
  | JUndefined | JNull => Throw TypeError
  | _ => Ok (prop v k)
  end.

Fixpoint assignProp (k : string) (x : JSValue) (props : list (string * JSValue))
  : list (string * JSValue) :=
  match props with
  | [] => [(k, x)]
  | (k', v) :: rest =>
      if String.eqb k k' then (k, x) :: rest else (k', v) :: assignProp k x rest
  end.

(** [v.k = x] in sloppy mode: throws on [undefined] and [null], is silently
    dropped on a primitive, replaces or appends the property of an object. *)
Definition setProp (v : JSValue) (k : string) (x : JSValue) : result JSValue :=
  match v with
  | JUndefined | JNull => Throw TypeError
  | JObj props => Ok (JObj (assignProp k x props))
  | _ => Ok v
  end.

End JS.
Export JS.

(** ** Configuration constants of [bootstrap] *)

Definition oneDay : Z := 86400000.
Definition partition : string := "mycatbox".
Definition segment : string := "myyar".
Definition cookie : string := "my-yar-cookie".

(** The TTL written by the [onPreResponse] extension: [oneDay * 365]. *)
Definition extendedTtl : Z := oneDay * 365.

(** The options handed to the yar plugin (lines 59-73). *)
Record YarOptions : Type := {
  opt_name : string;
  opt_maxCookieSize : Z;
  opt_cache_segment : string;
  opt_cache_expiresIn : Z;
  opt_cookie_ttl : Z
}.

Definition yarOptions : YarOptions := {|
  opt_name := cookie;
  opt_maxCookieSize := 0;
  opt_cache_segment := segment;
  opt_cache_expiresIn := oneDay;
  opt_cookie_ttl := oneDay
|}.

(** ** The cache engine *)

(** A cache key is [{segment, id}]. *)
Abbreviation CacheKey := (string * string)%type.

(** What the engine keeps for a key: the stored item and the TTL it was
    written with, in milliseconds. *)
Record CacheEntry : Type := {
  item : list (string * JSValue);
  ttl : Z
}.

(** Modelled from the spec: the catbox-redis engine, an external package, as
    the Session Cache of the spec: a key-value store with a TTL per entry and
    get, set and delete by (segment, id); [get] of a key that is not there
    answers [null], here [None]. *)
Definition cache_get (k : CacheKey) (c : gmap CacheKey CacheEntry) : option CacheEntry :=
  c !! k.

Definition cache_set (k : CacheKey) (v : list (string * JSValue)) (t : Z)
    (c : gmap CacheKey CacheEntry) : gmap CacheKey CacheEntry :=
  <[k := {| item := v; ttl := t |}]> c.

Definition cache_drop (k : CacheKey) (c : gmap CacheKey CacheEntry)
  : gmap CacheKey CacheEntry :=
  delete k c.

(** ** The session object [request.yar] *)

(** The session of one request: its identifier, the in-memory payload, and
    whether the deletion of its cache entry has been scheduled. *)
Record Yar : Type := {
  yar_id : string;
  yar_store : list (string * JSValue);
  yar_drop : bool
}.

(** Modelled from the spec: yar is an external package; [resolve], [get],
    [set], [clear] and [flush] follow the Session Store of the spec (4.1).
    [resolve] takes the identifier from the cookie, or a fresh one, and loads
    the cache entry, an empty payload when there is none; it never fails. *)
Definition yar_resolve (o : YarOptions) (sid : option string) (uuid : string)
    (c : gmap CacheKey CacheEntry) : Yar :=
  let id := default uuid sid in
  {| yar_id := id;
     yar_store := match cache_get (opt_cache_segment o, id) c with
                  | Some e => item e
                  | None => []
                  end;
     yar_drop := false |}.

(** Modelled from the spec: [get] is a pure read of the in-memory payload. *)
Definition yar_get (k : string) (y : Yar) : JSValue :=
  lookupProp k (yar_store y).

(** Modelled from the spec: [set] writes to the in-memory payload and leaves
    the cache alone until the flush. *)
Definition yar_set (k : string) (v : JSValue) (y : Yar) : Yar :=
  {| yar_id := yar_id y;
     yar_store := assignProp k v (yar_store y);
     yar_drop := yar_drop y |}.

(** Modelled from the spec: [clear] removes the payload entirely and
    schedules the deletion of the cache entry. *)
Definition yar_clear (k : string) (y : Yar) : Yar :=
  {| yar_id := yar_id y; yar_store := []; yar_drop := true |}.

(** ** The response toolkit [h] *)

(** A cookie the response sets: its value and its client-side TTL. *)
Record CookieState : Type := {
  cookie_value : JSValue;
  cookie_ttl : Z
}.

(** [h.state(name, value, {ttl})]: a later call for the same name replaces
    the earlier one. *)
Definition h_state (name : string) (value : JSValue) (t : Z)
    (h : gmap string CookieState) : gmap string CookieState :=
  <[name := {| cookie_value := value; cookie_ttl := t |}]> h.

(** What the log of a request records, in the order it happens. *)
Inductive Event : Type :=
| EvCacheGet (k : CacheKey)
| EvCacheSet (k : CacheKey) (t : Z)
| EvCacheDrop (k : CacheKey)
| EvAuthenticate (ok : bool)
| EvHandler (path : string)
| EvState (name : string) (t : Z).

(** Modelled from the spec: the value yar puts in the cookie. With
    [maxCookieSize] zero it is the identifier alone; a positive size lets the
    payload travel inline. *)
Definition yar_cookie_value (o : YarOptions) (y : Yar) : JSValue :=
  if (opt_maxCookieSize o =? 0)%Z
  then JObj [("id", JStr (yar_id y))]
  else JObj [("id", JStr (yar_id y)); ("_store", JObj (yar_store y))].

(** Modelled from the spec: [flush] writes the in-memory payload to the cache
    entry with the default TTL and refreshes the cookie with the default
    client-side TTL; a deletion scheduled by [clear] is then carried out. *)
Definition yar_flush (o : YarOptions) (y : Yar)
    (c : gmap CacheKey CacheEntry) (h : gmap string CookieState)
  : gmap CacheKey CacheEntry * gmap string CookieState * list Event :=
  let k := (opt_cache_segment o, yar_id y) in
  let c1 := cache_set k (yar_store y) (opt_cache_expiresIn o) c in
  let h1 := h_state (opt_name o) (yar_cookie_value o y) (opt_cookie_ttl o) h in
  let written := [EvCacheSet k (opt_cache_expiresIn o); EvState (opt_name o) (opt_cookie_ttl o)] in
  if yar_drop y
  then (cache_drop k c1, h1, (written ++ [EvCacheDrop k])%list)
  else (c1, h1, written).

(** ** Requests, routes and replies *)

Inductive Method : Type := GET | POST.

(** hapi's authentication modes; [Try] is the spec's optional mode. *)
Inductive AuthMode : Type := Required | Try | Disabled.

(** [request.auth] *)
Record Auth : Type := {
  isAuthenticated : bool;
  credentials : JSValue
}.

(** [request.route.settings]: the [app] object of the route ([{}] when the
    route gives none) and its [auth.mode], if it states one. *)
Record RouteSettings : Type := {
  app : JSValue;
  auth_mode : option AuthMode
}.

(** The part of hapi's [request] the program reads. *)
Record Request : Type := {
  settings : RouteSettings;
  payload : JSValue;
  yar : Yar;
  auth : Auth
}.

(** The context [outputHelper] builds for a view. The two [JSON.stringify]
    calls are kept as the values they print. *)
Record ViewContext : Type := {
  ctx_page : string;
  ctx_auth : bool;
  ctx_yar : string * JSValue;
  ctx_credentials : JSValue;
  ctx_username : JSValue
}.

Inductive Reply : Type :=
| View (template : string) (context : ViewContext)
| Redirect (location : string)
| Fail (e : Error).

Definition outputHelper (request : Request) (name : string) : ViewContext :=
  {| ctx_page := name;
     ctx_auth := isAuthenticated (auth request);
     ctx_yar := (yar_id (yar request), yar_get "data" (yar request));
     ctx_credentials := credentials (auth request);
     ctx_username := JUndefined |}.

(** ** The authentication scheme [my-scheme] (lines 38-49) *)

(** [h.authenticated({credentials})], of hapi's toolkit, an external
    package: the call asserts that the credentials are there, and throws
    when they are falsy. *)
Definition h_authenticated (credentials : JSValue) : result JSValue :=
  if truthy credentials then Ok credentials else Throw AssertionError.

Definition authenticate (request : Request) : result JSValue :=
  let data := yar_get "data" (yar request) in
  if truthy data then
    flag ← getProp data "auth";
    if truthy flag then
      username ← getProp data "username";
      h_authenticated username
    else Throw (Unauthorized "Please GTFO.")
  else Throw (Unauthorized "Please GTFO.").

(** ** The route handlers (lines 117-217) *)

(** A handler reads the request, may change the session, and returns a reply
    or throws. *)
Definition Handler : Type := Request -> Yar * result Reply.

(** GET / *)
Definition handler_root : Handler := fun request =>
  (yar request, Ok (View "default" (outputHelper request "default page"))).

(** GET /login *)
Definition handler_login_page : Handler := fun request =>
  (yar request, Ok (View "login" (outputHelper request "login page"))).

(** POST /login. The destructuring of [request.payload] throws on [null] and
    [undefined]; [password] is bound and never read. *)
Definition handler_login : Handler := fun request =>
  match (username ← getProp (payload request) "username";
         password ← getProp (payload request) "password";
         remember ← getProp (payload request) "remember";
         Ok (username, password, remember)) with
  | Throw e => (yar request, Throw e)
  | Ok (username, _, remember) =>
      (yar_set "data"
         (JObj [("username", username);
                ("remember", JBool (truthy remember));
                ("auth", JBool true)])
         (yar request),
       Ok (Redirect "/"))
  end.

(** GET /logout *)
Definition handler_logout : Handler := fun request =>
  (yar_clear "data" (yar request), Ok (Redirect "/")).

(** GET /secured *)
Definition handler_secured : Handler := fun request =>
  (yar request, Ok (View "secured" (outputHelper request "authenticated page"))).

(** GET /user *)
Definition handler_user : Handler := fun request =>
  let context := outputHelper request "account page" in
  match getProp (yar_get "data" (yar request)) "username" with
  | Throw e => (yar request, Throw e)
  | Ok username =>
      (yar request,
       Ok (View "user"
             {| ctx_page := ctx_page context;
                ctx_auth := ctx_auth context;
                ctx_yar := ctx_yar context;
                ctx_credentials := ctx_credentials context;
                ctx_username := username |}))
  end.

(** POST /user. [data] is the object held by the session, so the assignment
    already changes the session's copy; [set] then stores the same object.
    The right-hand side is evaluated before the assignment is attempted. *)
Definition handler_user_update : Handler := fun request =>
  let data := yar_get "data" (yar request) in
  match (username ← getProp (payload request) "username";
         setProp data "username" username) with
  | Throw e => (yar request, Throw e)
  | Ok data' => (yar_set "data" data' (yar request), Ok (Redirect "/"))
  end.

Record Route : Type := {
  method : Method;
  path : string;
  options : RouteSettings;
  handler : Handler
}.

(** The seven routes of [server.route], in the order of the source. *)
Definition route_root : Route :=
  {| method := GET; path := "/";
     options := {| app := JObj []; auth_mode := Some Try |};
     handler := handler_root |}.

Definition route_login_page : Route :=
  {| method := GET; path := "/login";
     options := {| app := JObj []; auth_mode := Some Try |};
     handler := handler_login_page |}.

Definition route_login : Route :=
  {| method := POST; path := "/login";
     options := {| app := JObj [("yarring", JBool true)]; auth_mode := Some Try |};
     handler := handler_login |}.

Definition route_logout : Route :=
  {| method := GET; path := "/logout";
     options := {| app := JObj []; auth_mode := None |};
     handler := handler_logout |}.

Definition route_secured : Route :=
  {| method := GET; path := "/secured";
     options := {| app := JObj []; auth_mode := None |};
     handler := handler_secured |}.

Definition route_user : Route :=
  {| method := GET; path := "/user";
     options := {| app := JObj []; auth_mode := None |};
     handler := handler_user |}.

Definition route_user_update : Route :=
  {| method := POST; path := "/user";
     options := {| app := JObj [("yarring", JBool true)]; auth_mode := None |};
     handler := handler_user_update |}.

Definition routes : list Route :=
  [route_root; route_login_page; route_login; route_logout; route_secured;
   route_user; route_user_update].

Definition method_eqb (a b : Method) : bool :=
  match a, b with
  | GET, GET | POST, POST => true
  | _, _ => false
  end.

(** The route of the table a request matches, if any: the first one with
    its method and its path. *)
Definition lookup_route (m : Method) (p : string) : option Route :=
  List.find (fun r => method_eqb (method r) m && String.eqb (path r) p) routes.

(** [server.auth.default('my-strategy')]: a route that states no mode gets
    the strategy in hapi's default mode, required. *)
Definition effective_mode (s : RouteSettings) : AuthMode :=
  default Required (auth_mode s).

(** ** The [onPreResponse] extension (lines 91-114) *)

(** The detached chain
    [cache.get(fullId).then((cached) => cache.set(fullId, cached.item, oneDay * 365))]
    started by the extension and not awaited by it. *)
Record Job : Type := { fullId : CacheKey }.

(** The extension itself (lines 96-113): nothing on a route that is not
    flagged; otherwise [remember] is read from the session data, which throws
    when there is no data, and a truthy flag starts the chain and sets the
    cookie again, with the identifier alone and the extended TTL. *)
Definition onPreResponse (request : Request) (h : gmap string CookieState)
  : result (gmap string CookieState * list Job * list Event) :=
  if negb (truthy (prop (app (settings request)) "yarring")) then Ok (h, [], [])
  else
    remember ← getProp (yar_get "data" (yar request)) "remember";
    if truthy remember then
      let id := yar_id (yar request) in
      Ok (h_state cookie (JObj [("id", JStr id)]) (oneDay * 365) h,
          [ {| fullId := (segment, id) |} ],
          [ EvState cookie (oneDay * 365) ])
    else Ok (h, [], []).

(** Settling one chain: [cached] is [null] when the entry is gone, and
    [cached.item] then throws inside the callback, which rejects the promise
    nobody holds. The read and the write of the chain are taken here as one
    step, with no other command on the cache between them. *)
Definition run_job (j : Job) (c : gmap CacheKey CacheEntry)
  : gmap CacheKey CacheEntry * result unit * list Event :=
  match cache_get (fullId j) c with
  | Some cached =>
      (cache_set (fullId j) (item cached) (oneDay * 365) c, Ok (),
       [EvCacheGet (fullId j); EvCacheSet (fullId j) (oneDay * 365)])
  | None => (c, Throw TypeError, [EvCacheGet (fullId j)])
  end.

Fixpoint settle (js : list Job) (c : gmap CacheKey CacheEntry)
  : gmap CacheKey CacheEntry * list Event :=
  match js with
  | [] => (c, [])
  | j :: rest =>
      let '(c1, _, ev1) := run_job j c in
      let '(c2, ev2) := settle rest c1 in
      (c2, (ev1 ++ ev2)%list)
  end.

(** ** One request through the lifecycle *)

Record Response : Type := {
  reply : Reply;
  states : gmap string CookieState
}.

(** What one request leaves behind: the response, the cache, the chains it
    started and has not awaited, and its log. *)
Record Outcome : Type := {
  response : Response;
  cache : gmap CacheKey CacheEntry;
  jobs : list Job;
  log : list Event
}.

(** [request.auth] of a request that is not authenticated. *)
Definition anonymous : Auth :=
  {| isAuthenticated := false; credentials := JUndefined |}.

(** Modelled from the spec: hapi's authentication step is an external
    package. In required mode a failed [authenticate] rejects the request
    with the failure it threw; in try mode the request goes on
    unauthenticated; a disabled route is not checked. *)
Definition run_auth (request : Request) : Auth + Error :=
  match effective_mode (settings request) with
  | Disabled => inl anonymous
  | mode =>
      match authenticate request with
      | Ok c => inl {| isAuthenticated := true; credentials := c |}
      | Throw e =>
          match mode with
          | Required => inr e
          | _ => inl anonymous
          end
      end
  end.

(** Modelled from the spec: hapi's lifecycle is an external package; the
    stages follow the data flow of the spec (2) and its stage list (9).
    First the session is resolved and the request authenticated: the result
    is the request as the handler will see it, or the rejection. *)
Definition auth_stage (r : Route) (sid : option string) (uuid : string)
    (body : JSValue) (c : gmap CacheKey CacheEntry) : Request + Error :=
  let request0 :=
    {| settings := options r; payload := body;
       yar := yar_resolve yarOptions sid uuid c; auth := anonymous |} in
  match run_auth request0 with
  | inl a =>
      inl {| settings := options r; payload := body;
             yar := yar request0; auth := a |}
  | inr e => inr e
  end.

(** Modelled from the spec: the response stage. The session is flushed, and
    then the extension runs, which is registered [after: ['yar']]; a throw of
    the extension becomes the reply. *)
Definition finish (request : Request) (rep : Reply) (ev : list Event)
    (c : gmap CacheKey CacheEntry) : Outcome :=
  let '(c1, h1, ev2) := yar_flush yarOptions (yar request) c ∅ in
  match onPreResponse request h1 with
  | Ok (h2, js, ev3) =>
      {| response := {| reply := rep; states := h2 |};
         cache := c1; jobs := js;
         log := (ev ++ ev2 ++ ev3)%list |}
  | Throw e =>
      {| response := {| reply := Fail e; states := h1 |};
         cache := c1; jobs := [];
         log := (ev ++ ev2)%list |}
  end.

(** Modelled from the spec: the whole lifecycle. A rejected request skips
    the handler; a throw of the handler becomes the reply. *)
Definition lifecycle (r : Route) (sid : option string) (uuid : string)
    (body : JSValue) (c : gmap CacheKey CacheEntry) : Outcome :=
  let y0 := yar_resolve yarOptions sid uuid c in
  let ev0 := EvCacheGet (opt_cache_segment yarOptions, yar_id y0) in
  match auth_stage r sid uuid body c with
  | inr e =>
      finish {| settings := options r; payload := body; yar := y0; auth := anonymous |}
             (Fail e) [ev0; EvAuthenticate false] c
  | inl request =>
      let '(y1, res) := handler r request in
      finish {| settings := options r; payload := body; yar := y1; auth := auth request |}
             (match res with Ok rep => rep | Throw e => Fail e end)
             [ev0; EvAuthenticate (isAuthenticated (auth request)); EvHandler (path r)] c
  end.

(** The request has completed once its response is built and the chains it
    started have settled. *)
Definition complete (o : Outcome) : Outcome :=
  let '(c, ev) := settle (jobs o) (cache o) in
  {| response := response o; cache := c; jobs := []; log := (log o ++ ev)%list |}.

(** A request no route of the table matches is answered not-found by hapi's
    router, an external package, without going through the session: the
    response sets no cookie and the cache gets no command. *)
Definition unmatched (c : gmap CacheKey CacheEntry) : Outcome :=
  {| response := {| reply := Fail NotFound; states := ∅ |};
     cache := c; jobs := []; log := [] |}.

Definition serve (m : Method) (p : string) (sid : option string) (uuid : string)
    (body : JSValue) (c : gmap CacheKey CacheEntry) : Outcome :=
  match lookup_route m p with
  | Some r => lifecycle r sid uuid body c
  | None => unmatched c
  end.

(** TTL of the session's cache entry and of the session cookie. *)
Definition cache_ttl (id : string) (c : gmap CacheKey CacheEntry) : option Z :=
  ttl <$> cache_get (segment, id) c.

Definition cookie_ttl_of (resp : Response) : option Z :=
  cookie_ttl <$> states resp !! cookie.

(** ** The server over time *)

(** The cache, the chains still pending, and every response sent so far. *)
Record Server : Type := {
  sv_cache : gmap CacheKey CacheEntry;
  sv_pending : list Job;
  sv_sent : list Response
}.

(** What can happen next: a request arrives (with the identifier of its
    cookie, if it has one, and the identifier yar would generate), the oldest
    pending chain settles, or an entry leaves the cache by expiry. *)
Inductive Input : Type :=
| InRequest (m : Method) (p : string) (sid : option string) (uuid : string)
            (body : JSValue)
| InSettle
| InExpire (k : CacheKey).

Definition step (s : Server) (i : Input) : Server :=
  match i with
  | InRequest m p sid uuid body =>
      let o := serve m p sid uuid body (sv_cache s) in
      {| sv_cache := cache o;
         sv_pending := (sv_pending s ++ jobs o)%list;
         sv_sent := response o :: sv_sent s |}
  | InSettle =>
      match sv_pending s with
      | [] => s
      | j :: rest =>
          {| sv_cache := (run_job j (sv_cache s)).1.1;
             sv_pending := rest;
             sv_sent := sv_sent s |}
      end
  | InExpire k =>
      {| sv_cache := cache_drop k (sv_cache s);
         sv_pending := sv_pending s;
         sv_sent := sv_sent s |}
  end.

Definition boot : Server :=
  {| sv_cache := ∅; sv_pending := []; sv_sent := [] |}.

Definition run (inputs : list Input) : Server := fold_left step inputs boot.

(** The cookie value names the session and nothing else. *)
Definition id_only (v : JSValue) : Prop :=
  exists id, v = JObj [("id", JStr id)].

(** ** Auxiliary notions of the statements *)

(** A route flagged for the post-processing of its cookie. *)
Definition yarring (s : RouteSettings) : Prop :=
  truthy (prop (app s) "yarring") = true.

(** The [remember] flag the extension reads from the session. *)
Definition remembered (y : Yar) : bool :=
  truthy (prop (yar_get "data" y) "remember").

(** The object the login handler stores under [data]. *)
Definition login_data (body : JSValue) : JSValue :=
  JObj [("username", prop body "username");
        ("remember", JBool (truthy (prop body "remember")));
        ("auth", JBool true)].

(** What [request.auth] becomes when the request is let through after the
    scheme has run. *)
Definition session_auth (y : Yar) : Auth :=
  let data := yar_get "data" y in
  if truthy data && truthy (prop data "auth") && truthy (prop data "username")
  then {| isAuthenticated := true; credentials := prop data "username" |}
  else anonymous.

(** The request the response stage of POST /login works on. *)
Definition login_request (sid : option string) (uuid : string) (body : JSValue)
    (c : gmap CacheKey CacheEntry) (a : Auth) : Request :=
  {| settings := options route_login; payload := body;
     yar := yar_set "data" (login_data body) (yar_resolve yarOptions sid uuid c);
     auth := a |}.

(** The entry of the session leaves the cache, by expiry or eviction, after
    the response stage and before the chain of the request settles. *)
Definition expire (k : CacheKey) (o : Outcome) : Outcome :=
  {| response := response o;
     cache := cache_drop k (cache o);
     jobs := jobs o;
     log := log o |}.

(** The events that may follow the default write of a request. *)
Definition after_flush (k : CacheKey) (e : Event) : Prop :=
  e = EvCacheDrop k ∨ e = EvState cookie (oneDay * 365)
  ∨ e = EvCacheGet k ∨ e = EvCacheSet k (oneDay * 365).

(** An event that writes: to the cache, or a cookie of the response. *)
Definition is_write (e : Event) : bool :=
  match e with
  | EvCacheSet _ _ | EvCacheDrop _ | EvState _ _ => true
  | _ => false
  end.

(** The invariant of the server: every response sent so far sets only
    cookies that name a session and nothing else. *)
Definition cookies_id_only (s : Server) : Prop :=
  ∀ resp name cs,
    In resp (sv_sent s) → states resp !! name = Some cs → id_only (cookie_value cs).

(** The session data is absent, or carries the flag [auth: true]. *)
Definition flag_ok (store : list (string * JSValue)) : Prop :=
  lookupProp "data" store = JUndefined
  ∨ prop (lookupProp "data" store) "auth" = JBool true.

(** The invariant of the cache: every entry satisfies [flag_ok]. *)
Definition cache_flag_ok (c : gmap CacheKey CacheEntry) : Prop :=
  ∀ k e, c !! k = Some e → flag_ok (item e).

(** The entry a settled chain writes back: the same item under the TTL of
    [oneDay * 365]. *)
Definition extended (e : CacheEntry) : CacheEntry :=
  {| item := item e; ttl := oneDay * 365 |}.

(** The request as the update handler sees it with another body and session. *)
Definition with_body (request : Request) (body : JSValue) (y : Yar) : Request :=
  {| settings := settings request; payload := body; yar := y; auth := auth request |}.

(** The invariant on TTLs: every entry has the TTL of one day or of 365
    days. *)
Definition cache_ttl_ok (c : gmap CacheKey CacheEntry) : Prop :=
  ∀ k e, c !! k = Some e → ttl e = 86400000 ∨ ttl e = 31536000000.

Ltac solve_after_flush :=
  repeat match goal with
         | |- Forall _ (_ ++ _) => apply Forall_app; split
         | |- Forall _ (_ :: _) => constructor
         | |- Forall _ [] => constructor
         | |- after_flush _ _ =>
             unfold after_flush;
             first [ left; reflexivity
                   | right; left; reflexivity
                   | right; right; left; reflexivity
                   | right; right; right; reflexivity ]
         end.

(** * Properties *)

(** ** Property reads and writes *)

Lemma lookupProp_assignProp_eq k x props :
  lookupProp k (assignProp k x props) = x.
Proof.
  induction props as [|[k' v] rest IH]; simpl.
  - by rewrite String.eqb_refl.
  - destruct (String.eqb k k') eqn:E; simpl.
    + by rewrite String.eqb_refl.
    + by rewrite E.
Qed.

Lemma lookupProp_assignProp_ne k k' x props :
  k ≠ k' → lookupProp k (assignProp k' x props) = lookupProp k props.
Proof.
  intros Hne. induction props as [|[k0 v] rest IH]; simpl.
  - apply String.eqb_neq in Hne. by rewrite Hne.
  - destruct (String.eqb k' k0) eqn:E; simpl.
    + apply String.eqb_eq in E. subst k0.
      apply String.eqb_neq in Hne. by rewrite Hne.
    + by rewrite IH.
Qed.

Lemma getProp_Ok v k :
  v ≠ JUndefined → v ≠ JNull → getProp v k = Ok (prop v k).
Proof. by destruct v. Qed.

Lemma yar_get_set_eq k v y : yar_get k (yar_set k v y) = v.
Proof. apply lookupProp_assignProp_eq. Qed.

Lemma yar_get_set_ne k k' v y : k ≠ k' → yar_get k (yar_set k' v y) = yar_get k y.
Proof. apply lookupProp_assignProp_ne. Qed.

(** ** The authenticator *)

(** [authenticate] as two tests: the session has data with a truthy [auth],
    or the scheme throws unauthorized; and the [username] of the data is
    truthy, or the assertion of [h.authenticated] fails. *)
Lemma authenticate_unfold request :
  authenticate request =
    let data := yar_get "data" (yar request) in
    if truthy data && truthy (prop data "auth")
    then h_authenticated (prop data "username")
    else Throw (Unauthorized "Please GTFO.").
Proof.
  unfold authenticate. cbv zeta.
  destruct (yar_get "data" (yar request)) as [| |b|n|s|props]; simpl;
    rewrite ?andb_false_r; try reflexivity; by case_match.
Qed.

Lemma authenticate_Ok_inv request identity :
  authenticate request = Ok identity →
  let data := yar_get "data" (yar request) in
  truthy data && truthy (prop data "auth") = true
  ∧ truthy (prop data "username") = true
  ∧ identity = prop data "username".
Proof.
  rewrite authenticate_unfold. cbv zeta. unfold h_authenticated.
  destruct (truthy _ && truthy _); [|done].
  destruct (truthy (prop _ "username")); [|done].
  by intros [= <-].
Qed.




(** ** The response stage *)

Lemma remembered_getProp y :
  remembered y = true →
  getProp (yar_get "data" y) "remember" = Ok (prop (yar_get "data" y) "remember").
Proof.
  unfold remembered. intros H. apply getProp_Ok; intros E; rewrite E in H; done.
Qed.

Lemma onPreResponse_plain request h :
  ¬ yarring (settings request) → onPreResponse request h = Ok (h, [], []).
Proof.
  unfold yarring, onPreResponse. intros H.
  destruct (truthy (prop (app (settings request)) "yarring")); done.
Qed.

Lemma onPreResponse_remember request h :
  yarring (settings request) → remembered (yar request) = true →
  onPreResponse request h =
    Ok (h_state cookie (JObj [("id", JStr (yar_id (yar request)))]) (oneDay * 365) h,
        [ {| fullId := (segment, yar_id (yar request)) |} ],
        [ EvState cookie (oneDay * 365) ]).
Proof.
  unfold yarring, onPreResponse. intros Hy Hr. rewrite Hy. simpl negb. cbv iota.
  rewrite (remembered_getProp _ Hr). simpl.
  unfold remembered in Hr. by rewrite Hr.
Qed.

Lemma onPreResponse_forget request h :
  yarring (settings request) →
  yar_get "data" (yar request) ≠ JUndefined → yar_get "data" (yar request) ≠ JNull →
  remembered (yar request) = false →
  onPreResponse request h = Ok (h, [], []).
Proof.
  unfold yarring, onPreResponse. intros Hy Hu Hn Hr. rewrite Hy. simpl negb. cbv iota.
  rewrite getProp_Ok by done. simpl.
  unfold remembered in Hr. by rewrite Hr.
Qed.

(** The flush leaves the payload in the cache under the default TTL, unless
    the deletion of the entry was scheduled. *)
Lemma finish_cache request rep ev c :
  cache (finish request rep ev c) =
    let k := (segment, yar_id (yar request)) in
    let c1 := cache_set k (yar_store (yar request)) oneDay c in
    if yar_drop (yar request) then cache_drop k c1 else c1.
Proof.
  unfold finish, yar_flush. simpl.
  destruct (yar_drop (yar request)); destruct (onPreResponse request _) as [[[? ?] ?]|]; done.
Qed.

Lemma resolve_store_cookie id uuid c :
  yar_store (yar_resolve yarOptions (Some id) uuid c) =
    match cache_get (segment, id) c with
    | Some e => item e
    | None => []
    end.
Proof. reflexivity. Qed.

(** Every handler of the table leaves the session identifier alone, and only
    the logout handler schedules a deletion. *)
Lemma handler_keeps_id r request :
  In r routes → yar_id (handler r request).1 = yar_id (yar request).
Proof.
  intros Hr. simpl in Hr.
  destruct Hr as [<-|[<-|[<-|[<-|[<-|[<-|[<-|[]]]]]]]]; simpl; try done.
  - unfold handler_login. destruct (payload request); simpl; done.
  - unfold handler_user. destruct (getProp _ _); done.
  - unfold handler_user_update.
    destruct (getProp (payload request) "username"); simpl; [|done].
    destruct (setProp _ _ _); done.
Qed.

Lemma handler_keeps_drop r request :
  In r routes → yarring (options r) →
  yar_drop (handler r request).1 = yar_drop (yar request).
Proof.
  intros Hr Hy. simpl in Hr.
  destruct Hr as [<-|[<-|[<-|[<-|[<-|[<-|[<-|[]]]]]]]]; try discriminate Hy; simpl.
  - unfold handler_login. destruct (payload request); simpl; done.
  - unfold handler_user_update.
    destruct (getProp (payload request) "username"); simpl; [|done].
    destruct (setProp _ _ _); done.
Qed.

(** The lifecycle ends in the response stage, run on the session as the
    handler left it, or as it was resolved when the request was rejected. *)
Lemma lifecycle_finish r sid uuid body c :
  ∃ request rep ev,
    lifecycle r sid uuid body c = finish request rep ev c
    ∧ settings request = options r
    ∧ (yar request = yar_resolve yarOptions sid uuid c
       ∨ ∃ seen, auth_stage r sid uuid body c = inl seen
                 ∧ yar seen = yar_resolve yarOptions sid uuid c
                 ∧ yar request = (handler r seen).1).
Proof.
  unfold lifecycle. destruct (auth_stage r sid uuid body c) as [seen|e] eqn:Ha.
  - destruct (handler r seen) as [y1 res] eqn:Hh.
    eexists _, _, _. split; [reflexivity|]. split; [done|]. right.
    exists seen. split; [done|]. simpl. split; [|by rewrite Hh].
    unfold auth_stage in Ha. destruct (run_auth _); [|done]. by injection Ha as <-.
  - eexists _, _, _. split; [reflexivity|]. split; [done|]. by left.
Qed.

Lemma lifecycle_finish_yarring r sid uuid body c :
  In r routes → yarring (options r) →
  ∃ request rep ev,
    lifecycle r sid uuid body c = finish request rep ev c
    ∧ yarring (settings request)
    ∧ yar_id (yar request) = default uuid sid
    ∧ yar_drop (yar request) = false.
Proof.
  intros Hr Hy.
  destruct (lifecycle_finish r sid uuid body c)
    as (request & rep & ev & Hl & Hs & [Hyar | (seen & _ & Hseen & Hyar)]).
  - exists request, rep, ev. rewrite Hs, Hyar. done.
  - exists request, rep, ev. rewrite Hs, Hyar.
    rewrite handler_keeps_id, handler_keeps_drop, Hseen by done. done.
Qed.

(** The response stage of a remembered session on a flagged route: the
    default write, then the extended cookie, and one chain left pending. *)
Lemma finish_remember request rep ev c :
  yarring (settings request) → yar_drop (yar request) = false →
  remembered (yar request) = true →
  let k := (segment, yar_id (yar request)) in
  finish request rep ev c =
    {| response :=
         {| reply := rep;
            states := h_state cookie (JObj [("id", JStr (yar_id (yar request)))])
                        (oneDay * 365)
                        (h_state cookie (yar_cookie_value yarOptions (yar request))
                           oneDay ∅) |};
       cache := cache_set k (yar_store (yar request)) oneDay c;
       jobs := [ {| fullId := k |} ];
       log := (ev ++ [EvCacheSet k oneDay; EvState cookie oneDay]
                  ++ [EvState cookie (oneDay * 365)])%list |}.
Proof.
  intros Hy Hd Hr k. unfold finish, yar_flush. rewrite Hd.
  rewrite (onPreResponse_remember _ _ Hy Hr). reflexivity.
Qed.

(** The response stage when the extension has nothing to do. *)
Lemma finish_default request rep ev c :
  onPreResponse request
    (h_state cookie (yar_cookie_value yarOptions (yar request)) oneDay ∅)
    = Ok (h_state cookie (yar_cookie_value yarOptions (yar request)) oneDay ∅, [], []) →
  yar_drop (yar request) = false →
  let k := (segment, yar_id (yar request)) in
  finish request rep ev c =
    {| response :=
         {| reply := rep;
            states := h_state cookie (yar_cookie_value yarOptions (yar request))
                        oneDay ∅ |};
       cache := cache_set k (yar_store (yar request)) oneDay c;
       jobs := [];
       log := (ev ++ [EvCacheSet k oneDay; EvState cookie oneDay] ++ [])%list |}.
Proof.
  intros Hh Hd k. unfold finish, yar_flush. rewrite Hd.
  change (opt_name yarOptions) with cookie.
  change (opt_cookie_ttl yarOptions) with oneDay.
  rewrite Hh. reflexivity.
Qed.

Lemma cache_ttl_set id v t c :
  cache_ttl id (cache_set (segment, id) v t c) = Some t.
Proof. unfold cache_ttl, cache_get, cache_set. by rewrite lookup_insert_eq. Qed.

Lemma cookie_ttl_state v t h resp :
  states resp = h_state cookie v t h → cookie_ttl_of resp = Some t.
Proof.
  unfold cookie_ttl_of, h_state. intros ->. by rewrite lookup_insert_eq.
Qed.

(** Settling the one chain of a request whose entry is still in the cache
    rewrites the entry, with the same item, under the extended TTL. *)
Lemma settle_present k e c :
  cache_get k c = Some e →
  settle [ {| fullId := k |} ] c =
    (cache_set k (item e) (oneDay * 365) c,
     [EvCacheGet k; EvCacheSet k (oneDay * 365)]).
Proof. intros H. simpl. unfold run_job. simpl. by rewrite H. Qed.

(** Settling it when the entry is gone writes nothing. *)
Lemma settle_missing k c :
  cache_get k c = None → settle [ {| fullId := k |} ] c = (c, [EvCacheGet k]).
Proof. intros H. simpl. unfold run_job. simpl. by rewrite H. Qed.

(** ** Remember-me *)

(** When the extension returns, the chain it started is still pending and
    the entry still carries the default TTL of the flush: the extended TTL
    reaches the cache only when the chain settles. *)
Lemma remember_pending_at_response (r : Route) (sid : option string)
    (uuid : string) (body : JSValue) (c : gmap CacheKey CacheEntry) :
  In r routes → yarring (options r) →
  let id := default uuid sid in
  let o := lifecycle r sid uuid body c in
  (∃ e, cache_get (segment, id) (cache o) = Some e
        ∧ truthy (prop (lookupProp "data" (item e)) "remember") = true) →
  cache_ttl id (cache o) = Some oneDay
  ∧ jobs o = [ {| fullId := (segment, id) |} ].
Proof.
  intros Hr Hy id o (e & He & Hrem).
  destruct (lifecycle_finish_yarring r sid uuid body c Hr Hy)
    as (request & rep & ev & Hl & Hys & Hid & Hd).
  subst o. rewrite Hl in *. fold id in Hid.
  assert (Hremembered : remembered (yar request) = true).
  { rewrite finish_cache, Hd, Hid in He. cbv zeta in He.
    unfold cache_get, cache_set in He. rewrite lookup_insert_eq in He.
    injection He as <-. exact Hrem. }
  rewrite (finish_remember _ _ _ _ Hys Hd Hremembered). rewrite Hid.
  cbn [cache jobs]. split; [apply cache_ttl_set | reflexivity].
Qed.

(** C1. On a route flagged [yarring] (POST /login and POST /user), when the
    payload the flush has just written has a truthy [remember], the request,
    once its chain has settled, leaves the cache entry under the extended TTL
    of 31,536,000,000 ms and the cookie under the same TTL, which is not the
    default one. *)
Theorem remember_extends_both_ttls (r : Route) (sid : option string)
    (uuid : string) (body : JSValue) (c : gmap CacheKey CacheEntry) :
  In r routes → yarring (options r) →
  let id := default uuid sid in
  let o := lifecycle r sid uuid body c in
  (∃ e, cache_get (segment, id) (cache o) = Some e
        ∧ truthy (prop (lookupProp "data" (item e)) "remember") = true) →
  cache_ttl id (cache (complete o)) = Some extendedTtl
  ∧ cookie_ttl_of (response (complete o)) = Some extendedTtl
  ∧ extendedTtl = 31536000000
  ∧ extendedTtl ≠ oneDay.
Proof.
  intros Hr Hy id o (e & He & Hrem).
  destruct (lifecycle_finish_yarring r sid uuid body c Hr Hy)
    as (request & rep & ev & Hl & Hys & Hid & Hd).
  subst o. rewrite Hl in *. fold id in Hid.
  assert (Hremembered : remembered (yar request) = true).
  { rewrite finish_cache, Hd, Hid in He. cbv zeta in He.
    unfold cache_get, cache_set in He. rewrite lookup_insert_eq in He.
    injection He as <-. exact Hrem. }
  rewrite (finish_remember _ _ _ _ Hys Hd Hremembered). rewrite Hid.
  unfold complete. cbn [jobs cache response log].
  erewrite settle_present by (unfold cache_get, cache_set; apply lookup_insert_eq).
  cbn [response cache]. split_and!.
  - apply cache_ttl_set.
  - by eapply cookie_ttl_state.
  - reflexivity.
  - done.
Qed.

Lemma remember_extends_both_ttls_witness :
  let body := JObj [("username", JStr "alice"); ("password", JStr "x");
                    ("remember", JBool true)] in
  let o := lifecycle route_login None "s1" body ∅ in
  cache_ttl "s1" (cache (complete o)) = Some extendedTtl
  ∧ cookie_ttl_of (response (complete o)) = Some extendedTtl
  ∧ extendedTtl = 31536000000
  ∧ extendedTtl ≠ oneDay.
Proof.
  intros body o.
  apply (remember_extends_both_ttls route_login None "s1" body ∅).
  - simpl. tauto.
  - reflexivity.
  - eexists. split; [vm_compute; reflexivity | reflexivity].
Defined.

(** ** Login *)

Lemma handler_login_body request :
  payload request ≠ JUndefined → payload request ≠ JNull →
  handler_login request =
    (yar_set "data" (login_data (payload request)) (yar request), Ok (Redirect "/")).
Proof.
  intros Hu Hn. unfold handler_login, login_data.
  rewrite !getProp_Ok by done. reflexivity.
Qed.

(** A route in try mode lets every request through. *)
Lemma auth_stage_try r sid uuid body c :
  effective_mode (options r) = Try →
  auth_stage r sid uuid body c =
    inl {| settings := options r; payload := body;
           yar := yar_resolve yarOptions sid uuid c;
           auth := session_auth (yar_resolve yarOptions sid uuid c) |}.
Proof.
  intros Hm. unfold auth_stage, run_auth, session_auth. cbn [settings yar]. rewrite Hm.
  rewrite authenticate_unfold. cbn [yar]. unfold h_authenticated.
  destruct (truthy _ && truthy _); [|done].
  by destruct (truthy (prop _ "username")).
Qed.

(** A request that matches a route goes through the lifecycle of the
    route. *)
Lemma serve_matched m p r sid uuid body c :
  lookup_route m p = Some r →
  serve m p sid uuid body c = lifecycle r sid uuid body c.
Proof. intros H. unfold serve. by rewrite H. Qed.


(** POST /login with a body, as one response stage. *)
Lemma serve_login sid uuid body c :
  body ≠ JUndefined → body ≠ JNull →
  let a := session_auth (yar_resolve yarOptions sid uuid c) in
  serve POST "/login" sid uuid body c =
    finish {| settings := options route_login; payload := body;
              yar := yar_set "data" (login_data body)
                       (yar_resolve yarOptions sid uuid c);
              auth := a |}
           (Redirect "/")
           [EvCacheGet (segment, default uuid sid);
            EvAuthenticate (isAuthenticated a); EvHandler "/login"] c.
Proof.
  intros Hu Hn a. rewrite (serve_matched POST "/login" route_login) by reflexivity.
  unfold lifecycle. rewrite (auth_stage_try route_login sid uuid body c eq_refl).
  change (handler route_login) with handler_login.
  rewrite handler_login_body by done. reflexivity.
Qed.

Lemma login_data_remember body :
  prop (login_data body) "remember" = JBool (truthy (prop body "remember")).
Proof. reflexivity. Qed.

Lemma login_session_remembered body y :
  remembered (yar_set "data" (login_data body) y) = truthy (prop body "remember").
Proof. unfold remembered. rewrite yar_get_set_eq. reflexivity. Qed.

(** Login with a truthy [remember]. *)
Lemma finish_login_remember sid uuid body c a rep ev :
  truthy (prop body "remember") = true →
  let request := login_request sid uuid body c a in
  let k := (segment, default uuid sid) in
  finish request rep ev c =
    {| response :=
         {| reply := rep;
            states := h_state cookie (JObj [("id", JStr (default uuid sid))])
                        (oneDay * 365)
                        (h_state cookie (yar_cookie_value yarOptions (yar request))
                           oneDay ∅) |};
       cache := cache_set k (yar_store (yar request)) oneDay c;
       jobs := [ {| fullId := k |} ];
       log := (ev ++ [EvCacheSet k oneDay; EvState cookie oneDay]
                  ++ [EvState cookie (oneDay * 365)])%list |}.
Proof.
  intros Hr request k.
  apply (finish_remember request rep ev c); [reflexivity|reflexivity|].
  unfold request, login_request. cbn [yar]. by rewrite login_session_remembered.
Qed.

(** Login with [remember] falsy or left out. *)
Lemma finish_login_forget sid uuid body c a rep ev :
  truthy (prop body "remember") = false →
  let request := login_request sid uuid body c a in
  let k := (segment, default uuid sid) in
  finish request rep ev c =
    {| response :=
         {| reply := rep;
            states := h_state cookie (yar_cookie_value yarOptions (yar request))
                        oneDay ∅ |};
       cache := cache_set k (yar_store (yar request)) oneDay c;
       jobs := [];
       log := (ev ++ [EvCacheSet k oneDay; EvState cookie oneDay] ++ [])%list |}.
Proof.
  intros Hr request k.
  apply (finish_default request rep ev c); [|reflexivity].
  apply onPreResponse_forget; [reflexivity| | |].
  - unfold request, login_request. cbn [yar]. by rewrite yar_get_set_eq.
  - unfold request, login_request. cbn [yar]. by rewrite yar_get_set_eq.
  - unfold request, login_request. cbn [yar]. by rewrite login_session_remembered.
Qed.

(** A login with a body is answered with the redirect. *)
Lemma login_reply sid uuid body c :
  body ≠ JUndefined → body ≠ JNull →
  reply (response (serve POST "/login" sid uuid body c)) = Redirect "/".
Proof.
  intros Hu Hn. rewrite (serve_login sid uuid body c Hu Hn). cbv zeta.
  set (a := session_auth (yar_resolve yarOptions sid uuid c)).
  fold (login_request sid uuid body c a).
  destruct (truthy (prop body "remember")) eqn:Hr.
  - by rewrite finish_login_remember.
  - by rewrite finish_login_forget.
Qed.



(** C5. POST /login with a body whose [remember] is left out or falsy stores
    [remember: false]; once the request has completed the cache entry and the
    cookie both carry the default TTL of 86,400,000 ms, the extension has
    started no chain, and no write of the log carries another TTL. *)
Theorem login_forget_keeps_default_ttls (sid : option string) (uuid : string)
    (body : JSValue) (c : gmap CacheKey CacheEntry) :
  body ≠ JUndefined → body ≠ JNull →
  truthy (prop body "remember") = false →
  let id := default uuid sid in
  let o := complete (serve POST "/login" sid uuid body c) in
  (∃ e, cache_get (segment, id) (cache o) = Some e
        ∧ prop (lookupProp "data" (item e)) "remember" = JBool false
        ∧ ttl e = oneDay)
  ∧ cookie_ttl_of (response o) = Some oneDay
  ∧ oneDay = 86400000
  ∧ jobs (serve POST "/login" sid uuid body c) = []
  ∧ (∀ k t, In (EvCacheSet k t) (log o) → t = oneDay)
  ∧ (∀ name t, In (EvState name t) (log o) → t = oneDay).
Proof.
  intros Hu Hn Hr id o. subst o.
  rewrite (serve_login sid uuid body c Hu Hn). cbv zeta.
  set (a := session_auth (yar_resolve yarOptions sid uuid c)).
  fold (login_request sid uuid body c a).
  rewrite finish_login_forget by done.
  unfold complete. cbn [jobs settle cache response log].
  split_and!.
  - eexists. split; [apply lookup_insert_eq|]. cbn [item ttl]. split; [|done].
    unfold login_request. cbn [yar yar_set yar_store].
    rewrite lookupProp_assignProp_eq, login_data_remember. by rewrite Hr.
  - by eapply cookie_ttl_state.
  - reflexivity.
  - reflexivity.
  - intros k t Hin. simpl in Hin.
    destruct Hin as [H|[H|[H|[H|[H|[]]]]]]; try discriminate H. by injection H.
  - intros name t Hin. simpl in Hin.
    destruct Hin as [H|[H|[H|[H|[H|[]]]]]]; try discriminate H. by injection H.
Qed.

Lemma login_forget_keeps_default_ttls_witness :
  let body := JObj [("username", JStr "alice"); ("password", JStr "x")] in
  let o := complete (serve POST "/login" None "s1" body ∅) in
  (∃ e, cache_get (segment, "s1") (cache o) = Some e
        ∧ prop (lookupProp "data" (item e)) "remember" = JBool false
        ∧ ttl e = oneDay)
  ∧ cookie_ttl_of (response o) = Some oneDay.
Proof.
  intros body o.
  destruct (login_forget_keeps_default_ttls None "s1" body ∅) as (H1 & H2 & _);
    [discriminate | discriminate | reflexivity |].
  split; [exact H1 | exact H2].
Defined.

(** ** Required routes *)

(** A route in required mode lets the request through when the scheme
    authenticates it and rejects it with the scheme's failure otherwise:
    unauthorized, or the failed assertion on a falsy [username]. *)
Lemma auth_stage_required r sid uuid body c :
  effective_mode (options r) = Required →
  auth_stage r sid uuid body c =
    let y := yar_resolve yarOptions sid uuid c in
    let data := yar_get "data" y in
    if truthy data && truthy (prop data "auth")
    then if truthy (prop data "username")
         then inl {| settings := options r; payload := body; yar := y;
                     auth := session_auth y |}
         else inr AssertionError
    else inr (Unauthorized "Please GTFO.").
Proof.
  intros Hm. unfold auth_stage, run_auth, session_auth. cbn [settings yar]. rewrite Hm.
  rewrite authenticate_unfold. cbn [yar]. cbv zeta. unfold h_authenticated.
  destruct (truthy _ && truthy _); [|done].
  by destruct (truthy (prop _ "username")).
Qed.

(** Data that passes the scheme is an object. *)
Lemma authenticated_data_is_object data :
  truthy data && truthy (prop data "auth") = true → ∃ props, data = JObj props.
Proof.
  destruct data; simpl; rewrite ?andb_false_r; try done. eauto.
Qed.

(** ** Profile update *)

(** What the update handler leaves in the session of an authenticated
    request: every field of the data but [username], and every other key, is
    as before; with a body the [username] is the one of the body and the
    reply is the redirect. *)
Lemma handler_user_update_frame request props :
  yar_get "data" (yar request) = JObj props →
  let y1 := (handler_user_update request).1 in
  yar_id y1 = yar_id (yar request)
  ∧ yar_drop y1 = yar_drop (yar request)
  ∧ (∃ props', yar_get "data" y1 = JObj props'
       ∧ (∀ k, k ≠ "username" → lookupProp k props' = lookupProp k props)
       ∧ (payload request ≠ JUndefined → payload request ≠ JNull →
          lookupProp "username" props' = prop (payload request) "username"))
  ∧ (∀ k, k ≠ "data" → yar_get k y1 = yar_get k (yar request))
  ∧ (payload request ≠ JUndefined → payload request ≠ JNull →
     (handler_user_update request).2 = Ok (Redirect "/")).
Proof.
  intros Hdata y1. subst y1. unfold handler_user_update. rewrite Hdata.
  destruct (getProp (payload request) "username") as [v|e] eqn:Hg; simpl.
  - assert (Hv : payload request ≠ JUndefined → payload request ≠ JNull →
                 v = prop (payload request) "username").
    { intros Hu Hn. rewrite getProp_Ok in Hg by done. by injection Hg. }
    split_and!; try done.
    + exists (assignProp "username" v props). split_and!.
      * apply yar_get_set_eq.
      * intros k Hk. by apply lookupProp_assignProp_ne.
      * intros Hu Hn. rewrite lookupProp_assignProp_eq. by apply Hv.
    + intros k Hk. by apply yar_get_set_ne.
  - split_and!; try done.
    + exists props. split_and!; try done.
      intros Hu Hn. by rewrite getProp_Ok in Hg.
    + intros Hu Hn. by rewrite getProp_Ok in Hg.
Qed.

(** C8. POST /user on a session the scheme authenticates stores data whose
    every field but [username], [auth] and [remember] among them, is as
    before, and leaves the other keys of the session untouched; with a body,
    the [username] stored is the one of the body and the reply is the
    redirect; and the TTLs follow the [remember] flag the session already
    had: extended for both when it is truthy, default for both otherwise. *)
Theorem user_update_changes_username_only (sid : option string) (uuid : string)
    (body : JSValue) (c : gmap CacheKey CacheEntry) (identity : JSValue) :
  let y0 := yar_resolve yarOptions sid uuid c in
  let data := yar_get "data" y0 in
  authenticate {| settings := options route_user_update; payload := body;
                  yar := y0; auth := anonymous |} = Ok identity →
  let id := default uuid sid in
  let o := complete (serve POST "/user" sid uuid body c) in
  ∃ e, cache_get (segment, id) (cache o) = Some e
    ∧ (∀ k, k ≠ "username" → prop (lookupProp "data" (item e)) k = prop data k)
    ∧ (∀ k, k ≠ "data" → lookupProp k (item e) = yar_get k y0)
    ∧ (body ≠ JUndefined → body ≠ JNull →
       prop (lookupProp "data" (item e)) "username" = prop body "username"
       ∧ reply (response o) = Redirect "/")
    ∧ (if truthy (prop data "remember")
       then ttl e = extendedTtl ∧ cookie_ttl_of (response o) = Some extendedTtl
       else ttl e = oneDay ∧ cookie_ttl_of (response o) = Some oneDay).
Proof.
  intros y0 data Hauth id o.
  apply authenticate_Ok_inv in Hauth as (Hok & Htruthy & _).
  cbn [yar] in Hok, Htruthy. fold data in Hok, Htruthy.
  destruct (authenticated_data_is_object data Hok) as [props Hprops].
  set (seen := {| settings := options route_user_update; payload := body;
                  yar := y0; auth := session_auth y0 |}).
  destruct (handler_user_update_frame seen props Hprops)
    as (Hid & Hdrop & (props' & Hdata' & Hother & Hname) & Hkeys & Hrep).
  cbv zeta in Hid, Hdrop, Hdata', Hkeys. cbn [yar payload seen] in *.
  set (y1 := (handler_user_update seen).1) in *.
  set (rep := match (handler_user_update seen).2 with
              | Ok rep => rep
              | Throw e => Fail e
              end).
  set (request := {| settings := options route_user_update; payload := body;
                     yar := y1; auth := session_auth y0 |}).
  set (ev := [EvCacheGet (segment, id); EvAuthenticate (isAuthenticated (session_auth y0));
              EvHandler "/user"]).
  assert (Hserve : serve POST "/user" sid uuid body c = finish request rep ev c).
  { rewrite (serve_matched POST "/user" route_user_update) by reflexivity.
    unfold lifecycle. rewrite (auth_stage_required route_user_update sid uuid body c eq_refl).
    fold y0. cbv zeta. fold data. rewrite Hok, Htruthy.
    change (handler route_user_update) with handler_user_update. fold seen.
    by destruct (handler_user_update seen) as [y res]. }
  assert (Hrem : remembered (yar request) = truthy (prop data "remember")).
  { unfold remembered, request. cbn [yar]. rewrite Hdata', Hprops. simpl prop.
    by rewrite Hother. }
  assert (Hfields :
    (∀ k, k ≠ "username" → prop (lookupProp "data" (yar_store y1)) k = prop data k)
    ∧ (∀ k, k ≠ "data" → lookupProp k (yar_store y1) = yar_get k y0)
    ∧ (body ≠ JUndefined → body ≠ JNull →
       prop (lookupProp "data" (yar_store y1)) "username" = prop body "username"
       ∧ rep = Redirect "/")).
  { fold (yar_get "data" y1). rewrite Hdata', Hprops. simpl prop. split_and!.
    - exact Hother.
    - exact Hkeys.
    - intros Hu Hn. split; [by apply Hname|]. unfold rep. by rewrite Hrep. }
  assert (Hk : (segment, yar_id (yar request)) = (segment, id)).
  { unfold request. cbn [yar]. by rewrite Hid. }
  destruct Hfields as (H1 & H2 & H3).
  subst o. rewrite Hserve.
  destruct (truthy (prop data "remember")) eqn:Hr.
  - rewrite (finish_remember request rep ev c) by done. rewrite Hk.
    unfold complete. cbn [jobs cache response log].
    erewrite settle_present by (unfold cache_get, cache_set; apply lookup_insert_eq).
    cbn [response reply cache item].
    eexists. split; [apply lookup_insert_eq|]. cbn [item ttl].
    split_and!; first [done | by eapply cookie_ttl_state].
  - rewrite (finish_default request rep ev c);
      [| apply onPreResponse_forget;
         [reflexivity
         | unfold request; cbn [yar]; by rewrite Hdata'
         | unfold request; cbn [yar]; by rewrite Hdata'
         | by rewrite Hrem]
       | done ].
    rewrite Hk.
    unfold complete. cbn [jobs settle cache response log reply].
    eexists. split; [apply lookup_insert_eq|]. cbn [item ttl].
    split_and!; first [done | by eapply cookie_ttl_state].
Qed.

Lemma user_update_changes_username_only_witness :
  let c0 := cache (complete (serve POST "/login" None "s1"
                     (JObj [("username", JStr "alice"); ("password", JStr "x");
                            ("remember", JBool true)]) ∅)) in
  let o := complete (serve POST "/user" (Some "s1") "s2"
                       (JObj [("username", JStr "bob")]) c0) in
  ∃ e, cache_get (segment, "s1") (cache o) = Some e
    ∧ prop (lookupProp "data" (item e)) "auth" = JBool true
    ∧ prop (lookupProp "data" (item e)) "username" = JStr "bob"
    ∧ ttl e = extendedTtl.
Proof.
  intros c0 o.
  destruct (user_update_changes_username_only (Some "s1") "s2"
              (JObj [("username", JStr "bob")]) c0 (JStr "alice"))
    as (e & He & Hframe & _ & Hname & Httl); [vm_compute; reflexivity |].
  exists e. split; [exact He|]. split; [exact (Hframe "auth" ltac:(discriminate))|].
  split; [apply Hname; discriminate | exact (proj1 Httl)].
Defined.

(** ** Logout *)

(** The response stage of a route that is not flagged: the flush alone. *)
Lemma finish_plain request rep ev c :
  ¬ yarring (settings request) →
  finish request rep ev c =
    {| response := {| reply := rep;
                      states := (yar_flush yarOptions (yar request) c ∅).1.2 |};
       cache := (yar_flush yarOptions (yar request) c ∅).1.1;
       jobs := [];
       log := (ev ++ (yar_flush yarOptions (yar request) c ∅).2 ++ [])%list |}.
Proof.
  intros Hy. unfold finish.
  destruct (yar_flush yarOptions (yar request) c ∅) as [[c1 h1] ev2] eqn:Hf.
  by rewrite (onPreResponse_plain _ _ Hy).
Qed.

(** C4. GET /logout on a session the scheme authenticates empties the
    payload and leaves no cache entry for the session: the next resolve of
    the same identifier finds an empty payload, and the scheme then throws
    the unauthorized failure. *)
Theorem logout_clears_session (sid : option string) (uuid : string)
    (body : JSValue) (c : gmap CacheKey CacheEntry) (identity : JSValue) :
  let y0 := yar_resolve yarOptions sid uuid c in
  authenticate {| settings := options route_logout; payload := body;
                  yar := y0; auth := anonymous |} = Ok identity →
  let id := default uuid sid in
  let o := complete (serve GET "/logout" sid uuid body c) in
  reply (response o) = Redirect "/"
  ∧ cache_get (segment, id) (cache o) = None
  ∧ ∀ uuid' body' s,
      let y := yar_resolve yarOptions (Some id) uuid' (cache o) in
      yar_store y = []
      ∧ yar_get "data" y = JUndefined
      ∧ authenticate {| settings := s; payload := body'; yar := y; auth := anonymous |}
        = Throw (Unauthorized "Please GTFO.").
Proof.
  intros y0 Hauth id o.
  apply authenticate_Ok_inv in Hauth as (Hok & Hname & _).
  cbn [yar] in Hok, Hname.
  set (request := {| settings := options route_logout; payload := body;
                     yar := yar_clear "data" y0; auth := session_auth y0 |}).
  set (ev := [EvCacheGet (segment, id); EvAuthenticate (isAuthenticated (session_auth y0));
              EvHandler "/logout"]).
  assert (Hserve : serve GET "/logout" sid uuid body c
                   = finish request (Redirect "/") ev c).
  { rewrite (serve_matched GET "/logout" route_logout) by reflexivity.
    unfold lifecycle. rewrite (auth_stage_required route_logout sid uuid body c eq_refl).
    fold y0. cbv zeta. rewrite Hok, Hname. reflexivity. }
  assert (Hgone : cache_get (segment, id) (cache o) = None).
  { subst o. rewrite Hserve. rewrite finish_plain by (intros H; discriminate H).
    unfold complete. cbn [jobs settle cache].
    unfold yar_flush, request. cbn [yar yar_clear yar_drop yar_id fst snd].
    unfold cache_get, cache_drop. apply lookup_delete_eq. }
  split_and!.
  - subst o. rewrite Hserve. rewrite finish_plain by (intros H; discriminate H).
    reflexivity.
  - exact Hgone.
  - intros uuid' body' s y.
    assert (Hstore : yar_store y = []).
    { unfold y. by rewrite resolve_store_cookie, Hgone. }
    split_and!; [exact Hstore | by unfold yar_get; rewrite Hstore |].
    rewrite authenticate_unfold. cbn [yar]. unfold yar_get. by rewrite Hstore.
Qed.

Lemma logout_clears_session_witness :
  let c0 := cache (complete (serve POST "/login" None "s1"
                     (JObj [("username", JStr "alice"); ("password", JStr "x");
                            ("remember", JBool true)]) ∅)) in
  let o := complete (serve GET "/logout" (Some "s1") "s2" JNull c0) in
  reply (response o) = Redirect "/"
  ∧ cache_get (segment, "s1") (cache o) = None.
Proof.
  intros c0 o.
  destruct (logout_clears_session (Some "s1") "s2" JNull c0 (JStr "alice"))
    as (H1 & H2 & _); [vm_compute; reflexivity |].
  split; [exact H1 | exact H2].
Defined.

(** ** A vanished cache entry *)

(** C3, as amended. On a flagged route with a truthy [remember] just
    flushed, when the cache entry vanishes before the chain of the extension
    settles, the chain reads nothing and writes nothing, its rejection
    reaches nobody and the reply of the request stands (the redirect, for a
    login with a body); but the cookie has already been issued with the
    extended TTL. *)
Theorem reconcile_missing_entry (r : Route) (sid : option string) (uuid : string)
    (body : JSValue) (c : gmap CacheKey CacheEntry) :
  In r routes → yarring (options r) →
  let k := (segment, default uuid sid) in
  let o := lifecycle r sid uuid body c in
  (∃ e, cache_get k (cache o) = Some e
        ∧ truthy (prop (lookupProp "data" (item e)) "remember") = true) →
  let o' := complete (expire k o) in
  cache o' = cache_drop k (cache o)
  ∧ cache_get k (cache o') = None
  ∧ log o' = (log o ++ [EvCacheGet k])%list
  ∧ run_job {| fullId := k |} (cache (expire k o))
    = (cache (expire k o), Throw TypeError, [EvCacheGet k])
  ∧ reply (response o') = reply (response o)
  ∧ (r = route_login → body ≠ JUndefined → body ≠ JNull →
     reply (response o') = Redirect "/")
  ∧ cookie_ttl_of (response o') = Some extendedTtl.
Proof.
  intros Hr Hy k o (e & He & Hrem) o'.
  destruct (lifecycle_finish_yarring r sid uuid body c Hr Hy)
    as (request & rep & ev & Hl & Hys & Hid & Hd).
  assert (Hremembered : remembered (yar request) = true).
  { subst o. rewrite Hl, finish_cache, Hd, Hid in He. cbv zeta in He.
    unfold cache_get, cache_set in He. rewrite lookup_insert_eq in He.
    injection He as <-. exact Hrem. }
  assert (Ho : o = finish request rep ev c) by exact Hl.
  rewrite (finish_remember _ _ _ _ Hys Hd Hremembered), Hid in Ho. fold k in Ho.
  assert (Hnone : cache_get k (cache (expire k o)) = None).
  { unfold expire, cache_get, cache_drop. cbn [cache]. apply lookup_delete_eq. }
  assert (Hjobs : jobs (expire k o) = [ {| fullId := k |} ]) by (by rewrite Ho).
  subst o'. unfold complete. rewrite Hjobs, (settle_missing _ _ Hnone).
  cbn [cache response log].
  split_and!.
  - reflexivity.
  - exact Hnone.
  - reflexivity.
  - unfold run_job. cbn [fullId]. by rewrite Hnone.
  - reflexivity.
  - intros -> Hu Hn. cbn [expire response].
    exact (login_reply sid uuid body c Hu Hn).
  - cbn [expire response]. rewrite Ho. by eapply cookie_ttl_state.
Qed.

Lemma reconcile_missing_entry_witness :
  let body := JObj [("username", JStr "alice"); ("password", JStr "x");
                    ("remember", JBool true)] in
  let k := (segment, "s1") in
  let o' := complete (expire k (lifecycle route_login None "s1" body ∅)) in
  cache_get k (cache o') = None
  ∧ cookie_ttl_of (response o') = Some extendedTtl.
Proof.
  intros body k o'.
  destruct (reconcile_missing_entry route_login None "s1" body ∅)
    as (_ & Hgone & _ & _ & _ & _ & Hcookie).
  - simpl. tauto.
  - reflexivity.
  - eexists. split; [vm_compute; reflexivity | reflexivity].
  - split; [exact Hgone | exact Hcookie].
Defined.

(** C3, as stated, fails: after a login with [remember: true] whose cache
    entry vanishes before the chain settles, nothing is written to the cache
    and the reply stands, yet the cookie does not keep the default TTL. *)
Lemma reconcile_missing_entry_default_cookie_refuted :
  ¬ (∀ (r : Route) (sid : option string) (uuid : string) (body : JSValue)
       (c : gmap CacheKey CacheEntry),
       In r routes → yarring (options r) →
       let k := (segment, default uuid sid) in
       let o := lifecycle r sid uuid body c in
       (∃ e, cache_get k (cache o) = Some e
             ∧ truthy (prop (lookupProp "data" (item e)) "remember") = true) →
       let o' := complete (expire k o) in
       cache o' = cache_drop k (cache o)
       ∧ cookie_ttl_of (response o') = Some oneDay
       ∧ reply (response o') = reply (response o)).
Proof.
  intros H.
  specialize (H route_login None "s1"
                (JObj [("username", JStr "alice"); ("password", JStr "x");
                       ("remember", JBool true)]) ∅).
  destruct H as (_ & Hcookie & _).
  - simpl. tauto.
  - reflexivity.
  - eexists. split; [vm_compute; reflexivity | reflexivity].
  - vm_compute in Hcookie. discriminate Hcookie.
Qed.

(** ** The order of the writes *)

(** What the extension can return: nothing to do, a throw, or the extended
    cookie together with one chain. *)
Lemma onPreResponse_cases request h :
  onPreResponse request h = Ok (h, [], [])
  ∨ (∃ e, onPreResponse request h = Throw e)
  ∨ onPreResponse request h =
      Ok (h_state cookie (JObj [("id", JStr (yar_id (yar request)))]) (oneDay * 365) h,
          [ {| fullId := (segment, yar_id (yar request)) |} ],
          [ EvState cookie (oneDay * 365) ]).
Proof.
  unfold onPreResponse.
  destruct (truthy (prop (app (settings request)) "yarring")); simpl; [|by left].
  destruct (getProp (yar_get "data" (yar request)) "remember") as [v|e]; simpl.
  - destruct (truthy v); [right; by right | by left].
  - right. left. eauto.
Qed.

Lemma settle_one_events k c :
  ∃ c' evj, settle [ {| fullId := k |} ] c = (c', evj) ∧ Forall (after_flush k) evj.
Proof.
  destruct (cache_get k c) as [e|] eqn:Hk.
  - rewrite (settle_present k e c Hk). eexists _, _. split; [reflexivity|].
    solve_after_flush.
  - rewrite (settle_missing k c Hk). eexists _, _. split; [reflexivity|].
    solve_after_flush.
Qed.

(** The log of a completed request: what came before the response stage,
    the default write of the flush, and only then whatever the deletion, the
    extension and its chain add. *)
Lemma finish_log_shape request rep ev c :
  let k := (segment, yar_id (yar request)) in
  ∃ post,
    log (complete (finish request rep ev c))
      = (ev ++ [EvCacheSet k oneDay; EvState cookie oneDay] ++ post)%list
    ∧ Forall (after_flush k) post.
Proof.
  intros k. unfold finish, yar_flush.
  change (opt_cache_segment yarOptions) with segment.
  change (opt_cache_expiresIn yarOptions) with oneDay.
  change (opt_name yarOptions) with cookie.
  change (opt_cookie_ttl yarOptions) with oneDay.
  fold k.
  destruct (yar_drop (yar request)).
  - match goal with
    | |- context [onPreResponse ?rq ?h] =>
        destruct (onPreResponse_cases rq h) as [-> | [[e ->] | ->]]
    end; unfold complete; cbn [jobs cache log response]; fold k.
    + exists [EvCacheDrop k]. cbn [settle]. rewrite !app_nil_r.
      split; [reflexivity | solve_after_flush].
    + exists [EvCacheDrop k]. cbn [settle]. rewrite !app_nil_r.
      split; [reflexivity | solve_after_flush].
    + match goal with
      | |- context [settle _ ?c1] =>
          destruct (settle_one_events k c1) as (c' & evj & -> & HF)
      end.
      exists ([EvCacheDrop k; EvState cookie (oneDay * 365)] ++ evj)%list.
      cbn [log]. split; [rewrite <- !app_assoc; reflexivity|].
      solve_after_flush. exact HF.
  - match goal with
    | |- context [onPreResponse ?rq ?h] =>
        destruct (onPreResponse_cases rq h) as [-> | [[e ->] | ->]]
    end; unfold complete; cbn [jobs cache log response]; fold k.
    + exists []. cbn [settle]. rewrite !app_nil_r.
      split; [reflexivity | solve_after_flush].
    + exists []. cbn [settle]. rewrite !app_nil_r.
      split; [reflexivity | solve_after_flush].
    + match goal with
      | |- context [settle _ ?c1] =>
          destruct (settle_one_events k c1) as (c' & evj & -> & HF)
      end.
      exists ([EvState cookie (oneDay * 365)] ++ evj)%list.
      cbn [log]. split; [rewrite <- !app_assoc; reflexivity|].
      solve_after_flush. exact HF.
Qed.

(** The two ways through the lifecycle: the request is rejected and the
    response stage runs on the session as resolved, or the handler runs and
    the response stage works on the session as the handler left it. *)
Lemma lifecycle_cases r sid uuid body c :
  let y0 := yar_resolve yarOptions sid uuid c in
  let ev0 := EvCacheGet (segment, default uuid sid) in
  (∃ e, auth_stage r sid uuid body c = inr e
        ∧ lifecycle r sid uuid body c =
            finish {| settings := options r; payload := body; yar := y0;
                      auth := anonymous |}
                   (Fail e) [ev0; EvAuthenticate false] c)
  ∨ (∃ seen, auth_stage r sid uuid body c = inl seen
        ∧ yar seen = y0
        ∧ lifecycle r sid uuid body c =
            finish {| settings := options r; payload := body;
                      yar := (handler r seen).1; auth := auth seen |}
                   (match (handler r seen).2 with Ok rep => rep | Throw e => Fail e end)
                   [ev0; EvAuthenticate (isAuthenticated (auth seen));
                    EvHandler (path r)] c).
Proof.
  intros y0 ev0. unfold lifecycle.
  destruct (auth_stage r sid uuid body c) as [seen|e] eqn:Ha.
  - right. exists seen. split; [done|]. split.
    + unfold auth_stage in Ha. destruct (run_auth _); [|done]. by injection Ha as <-.
    + by destruct (handler r seen) as [y1 res].
  - left. by exists e.
Qed.

(** C9. In the log of every completed request the default write of the
    flush comes first: nothing is written before it, everything the
    extension and its chain do comes after it, and every cache write under
    the extended TTL has the default write of the same key strictly before
    it. *)
Theorem flush_precedes_reconciliation (r : Route) (sid : option string)
    (uuid : string) (body : JSValue) (c : gmap CacheKey CacheEntry) :
  let o := complete (lifecycle r sid uuid body c) in
  ∃ k pre post,
    log o = (pre ++ [EvCacheSet k oneDay; EvState cookie oneDay] ++ post)%list
    ∧ Forall (λ e, is_write e = false) pre
    ∧ Forall (after_flush k) post
    ∧ ∀ k' i,
        log o !! i = Some (EvCacheSet k' (oneDay * 365)) →
        ∃ j, (j < i)%nat ∧ log o !! j = Some (EvCacheSet k' oneDay).
Proof.
  intros o.
  assert (Hshape : ∃ request rep ev,
             lifecycle r sid uuid body c = finish request rep ev c
             ∧ Forall (λ e, is_write e = false) ev).
  { destruct (lifecycle_cases r sid uuid body c)
      as [(e & _ & ->) | (seen & _ & _ & ->)];
      eexists _, _, _; (split; [reflexivity|]); by repeat constructor. }
  destruct Hshape as (request & rep & ev & Hl & Hev).
  destruct (finish_log_shape request rep ev c) as (post & Hlog & Hpost).
  set (k := (segment, yar_id (yar request))) in *.
  subst o. rewrite Hl.
  exists k, ev, post. split_and!; [exact Hlog | exact Hev | exact Hpost |].
  intros k' i Hi. rewrite Hlog in Hi.
  apply lookup_app_Some in Hi as [Hpre | [Hle Hi]].
  - pose proof (Forall_lookup_1 _ _ _ _ Hev Hpre) as Hw. discriminate Hw.
  - destruct (i - length ev)%nat as [|[|n]] eqn:Hn; simpl in Hi.
    + injection Hi as _ Hi. vm_compute in Hi. discriminate Hi.
    + discriminate Hi.
    + pose proof (Forall_lookup_1 _ _ _ _ Hpost Hi) as Ha.
      destruct Ha as [Ha|[Ha|[Ha|Ha]]]; try discriminate Ha.
      injection Ha as ->.
      exists (length ev). split; [lia|].
      rewrite Hlog, lookup_app_r, Nat.sub_diag by lia. reflexivity.
Qed.

Lemma flush_precedes_reconciliation_witness :
  let body := JObj [("username", JStr "alice"); ("password", JStr "x");
                    ("remember", JBool true)] in
  let o := complete (lifecycle route_login None "s1" body ∅) in
  ∃ j, (j < 7)%nat ∧ log o !! j = Some (EvCacheSet (segment, "s1") oneDay).
Proof.
  intros body o.
  destruct (flush_precedes_reconciliation route_login None "s1" body ∅)
    as (k & pre & post & _ & _ & _ & H).
  apply (H (segment, "s1") 7%nat). vm_compute. reflexivity.
Defined.

(** ** The authentication modes *)

(** Required is the mode of every route that states none, and the only
    routes in another mode are GET /, GET /login and POST /login, which state
    try. *)
Lemma route_modes :
  (∀ s, auth_mode s = None → effective_mode s = Required)
  ∧ map (λ r, (method r, path r, auth_mode (options r), effective_mode (options r)))
        routes
    = [ (GET, "/", Some Try, Try); (GET, "/login", Some Try, Try);
        (POST, "/login", Some Try, Try); (GET, "/logout", None, Required);
        (GET, "/secured", None, Required); (GET, "/user", None, Required);
        (POST, "/user", None, Required) ].
Proof.
  split; [|reflexivity]. intros s Hs. unfold effective_mode. by rewrite Hs.
Qed.

(** On a required route a request whose session has no data with a truthy
    [auth] is rejected with the unauthorized failure and its handler never
    runs. On a route that is not flagged the reply is that failure; on the
    flagged one a session without data makes the extension throw, and the
    [TypeError] replaces it. *)
Lemma required_rejects r sid uuid body c :
  In r routes → effective_mode (options r) = Required →
  let data := yar_get "data" (yar_resolve yarOptions sid uuid c) in
  truthy data && truthy (prop data "auth") = false →
  let o := complete (lifecycle r sid uuid body c) in
  auth_stage r sid uuid body c = inr (Unauthorized "Please GTFO.")
  ∧ (∀ p, ¬ In (EvHandler p) (log o))
  ∧ (¬ yarring (options r) →
     reply (response o) = Fail (Unauthorized "Please GTFO."))
  ∧ (yarring (options r) → data = JUndefined ∨ data = JNull →
     reply (response o) = Fail TypeError).
Proof.
  intros Hr Hm data Hcond o.
  assert (Ha : auth_stage r sid uuid body c = inr (Unauthorized "Please GTFO.")).
  { rewrite (auth_stage_required r sid uuid body c Hm). cbv zeta.
    fold data. by rewrite Hcond. }
  destruct (lifecycle_cases r sid uuid body c)
    as [(e & Ha' & Hl) | (seen & Ha' & _)]; [|by rewrite Ha in Ha'].
  rewrite Ha in Ha'. injection Ha' as <-.
  set (request := {| settings := options r; payload := body;
                     yar := yar_resolve yarOptions sid uuid c;
                     auth := anonymous |}) in Hl.
  set (ev := [EvCacheGet (segment, default uuid sid); EvAuthenticate false]) in Hl.
  split_and!.
  - exact Ha.
  - intros p Hin. subst o. rewrite Hl in Hin.
    destruct (finish_log_shape request (Fail (Unauthorized "Please GTFO.")) ev c)
      as (post & Hlog & Hpost).
    rewrite Hlog in Hin. apply in_app_or in Hin as [Hin | Hin].
    + simpl in Hin. destruct Hin as [H|[H|[]]]; discriminate H.
    + apply in_app_or in Hin as [Hin | Hin].
      * simpl in Hin. destruct Hin as [H|[H|[]]]; discriminate H.
      * rewrite Forall_forall in Hpost. apply list_elem_of_In in Hin.
        destruct (Hpost _ Hin) as [H|[H|[H|H]]]; discriminate H.
  - intros Hny. subst o. rewrite Hl. unfold complete.
    destruct (settle _ _) as [c2 ev2]. cbn [response].
    by rewrite finish_plain.
  - intros Hy Hd. subst o. rewrite Hl. unfold complete.
    destruct (settle _ _) as [c2 ev2]. cbn [response].
    unfold finish. destruct (yar_flush _ _ _ _) as [[c1 h1] ev1].
    assert (Hthrow : onPreResponse request h1 = Throw TypeError).
    { unfold onPreResponse. cbn [request settings yar].
      unfold yarring in Hy. rewrite Hy. cbn [negb]. fold data.
      by destruct Hd as [-> | ->]. }
    by rewrite Hthrow.
Qed.

(** On a try route a request the scheme does not authenticate is let
    through: the handler runs and sees [isAuthenticated] false, as the views
    of GET / and GET /login show. *)
Lemma try_lets_through r sid uuid body c :
  In r routes → effective_mode (options r) = Try →
  (∀ identity,
     authenticate {| settings := options r; payload := body;
                     yar := yar_resolve yarOptions sid uuid c;
                     auth := anonymous |} ≠ Ok identity) →
  let o := complete (lifecycle r sid uuid body c) in
  (∃ seen, auth_stage r sid uuid body c = inl seen
           ∧ isAuthenticated (auth seen) = false)
  ∧ In (EvHandler (path r)) (log o)
  ∧ (r = route_root ∨ r = route_login_page →
     ∃ template context,
       reply (response o) = View template context
       ∧ ctx_auth context = false).
Proof.
  intros Hr Hm Hno o.
  pose proof (auth_stage_try r sid uuid body c Hm) as Ha.
  assert (Hanon : session_auth (yar_resolve yarOptions sid uuid c) = anonymous).
  { unfold session_auth. cbv zeta.
    destruct (truthy _ && truthy _ && truthy _) eqn:Hc; [|done].
    apply andb_true_iff in Hc as [Hc Hname].
    exfalso. apply (Hno (prop (yar_get "data" (yar_resolve yarOptions sid uuid c))
                              "username")).
    rewrite authenticate_unfold. cbn [yar]. cbv zeta. unfold h_authenticated.
    by rewrite Hc, Hname. }
  rewrite Hanon in Ha.
  destruct (lifecycle_cases r sid uuid body c)
    as [(e & Ha' & _) | (seen & Ha' & _ & Hl)]; [by rewrite Ha in Ha'|].
  rewrite Ha in Ha'. injection Ha' as <-.
  split_and!.
  - eexists. split; [exact Ha|]. done.
  - subst o. rewrite Hl.
    match type of Hl with
    | _ = finish ?rq ?rep ?ev _ =>
        destruct (finish_log_shape rq rep ev c) as (post & Hlog & _)
    end.
    rewrite Hlog. apply in_or_app. left. simpl. tauto.
  - intros Hview. subst o. rewrite Hl. unfold complete.
    destruct (settle _ _) as [c2 ev2]. cbn [response].
    destruct Hview as [-> | ->]; rewrite finish_plain by (intros H; discriminate H);
      cbn [reply handler route_root route_login_page handler_root
           handler_login_page snd];
      eexists _, _; (split; [reflexivity|]); reflexivity.
Qed.

(** C6. The claim fails on POST /user, the one required route that is
    flagged: for a request without a session the scheme throws unauthorized
    and the handler never runs, as on the other required routes, but the
    extension then reads [remember] of [undefined], and its [TypeError]
    replaces the unauthorized reply. GET /logout, GET /secured and GET /user
    answer the same request with the unauthorized failure. *)
Theorem required_flagged_route_reply :
  let body := JObj [("username", JStr "bob")] in
  let o := complete (serve POST "/user" None "s1" body ∅) in
  effective_mode (options route_user_update) = Required
  ∧ auth_stage route_user_update None "s1" body ∅
    = inr (Unauthorized "Please GTFO.")
  ∧ (∀ p, ¬ In (EvHandler p) (log o))
  ∧ reply (response o) = Fail TypeError
  ∧ reply (response (complete (serve GET "/logout" None "s1" body ∅)))
    = Fail (Unauthorized "Please GTFO.")
  ∧ reply (response (complete (serve GET "/secured" None "s1" body ∅)))
    = Fail (Unauthorized "Please GTFO.")
  ∧ reply (response (complete (serve GET "/user" None "s1" body ∅)))
    = Fail (Unauthorized "Please GTFO.").
Proof.
  intros body o.
  destruct (required_rejects route_user_update None "s1" body ∅)
    as (Hstage & Hhandler & _ & Hreply);
    [simpl; tauto | reflexivity | reflexivity |].
  split_and!;
    [ reflexivity | exact Hstage | exact Hhandler
    | apply Hreply; [reflexivity | by left]
    | reflexivity | reflexivity | reflexivity ].
Qed.

(** ** What the cookie carries *)

(** Every cookie the response stage sets names the session and nothing
    else. *)
Lemma finish_states request rep ev c name cs :
  states (response (finish request rep ev c)) !! name = Some cs →
  cookie_value cs = JObj [("id", JStr (yar_id (yar request)))].
Proof.
  unfold finish, yar_flush.
  change (yar_cookie_value yarOptions (yar request))
    with (JObj [("id", JStr (yar_id (yar request)))]).
  assert (Hflush : ∀ cs',
    h_state (opt_name yarOptions) (JObj [("id", JStr (yar_id (yar request)))])
            (opt_cookie_ttl yarOptions) ∅ !! name = Some cs' →
    cookie_value cs' = JObj [("id", JStr (yar_id (yar request)))]).
  { intros cs'. unfold h_state. rewrite lookup_insert. case_decide.
    - by intros [= <-].
    - by rewrite lookup_empty. }
  destruct (yar_drop (yar request));
    (match goal with
     | |- context [onPreResponse ?rq ?h] =>
         destruct (onPreResponse_cases rq h) as [-> | [[e ->] | ->]]
     end); cbn [response states]; try apply Hflush.
  all: unfold h_state at 1; rewrite lookup_insert; case_decide;
    [by intros [= <-] | apply Hflush].
Qed.

Lemma serve_states m p sid uuid body c name cs :
  states (response (serve m p sid uuid body c)) !! name = Some cs →
  id_only (cookie_value cs).
Proof.
  unfold serve. destruct (lookup_route m p) as [r|].
  - destruct (lifecycle_cases r sid uuid body c)
      as [(e & _ & ->) | (seen & _ & _ & ->)];
      intros H; apply finish_states in H; rewrite H; by eexists.
  - cbn [unmatched response states]. by rewrite lookup_empty.
Qed.

Lemma step_cookies_id_only s i :
  cookies_id_only s → cookies_id_only (step s i).
Proof.
  intros Hs. destruct i as [m p sid uuid body| |k]; simpl.
  - intros resp name cs [<- | Hin] Hl.
    + by eapply serve_states.
    + by eapply Hs.
  - by destruct (sv_pending s).
  - exact Hs.
Qed.

Lemma fold_cookies_id_only inputs s :
  cookies_id_only s → cookies_id_only (fold_left step inputs s).
Proof.
  revert s. induction inputs as [|i inputs IH]; intros s Hs; simpl; [done|].
  apply IH. by apply step_cookies_id_only.
Qed.

Lemma id_only_no_payload v k :
  id_only v → k ≠ "id" → prop v k = JUndefined.
Proof.
  intros [id ->] Hk. simpl. apply String.eqb_neq in Hk. by rewrite Hk.
Qed.

(** C10. The inline cookie size is configured to zero, and in every state
    the server reaches, by requests, settling chains and expiring entries in
    any order, every cookie of every response sent is the object [{id}]: it
    has no [auth], no [data], no property at all besides the identifier. *)
Theorem cookie_carries_id_only :
  opt_maxCookieSize yarOptions = 0
  ∧ ∀ inputs resp name cs,
      In resp (sv_sent (run inputs)) → states resp !! name = Some cs →
      id_only (cookie_value cs)
      ∧ prop (cookie_value cs) "auth" = JUndefined
      ∧ prop (cookie_value cs) "data" = JUndefined
      ∧ ∀ k, k ≠ "id" → prop (cookie_value cs) k = JUndefined.
Proof.
  split; [reflexivity|].
  intros inputs resp name cs Hin Hl.
  assert (Hid : id_only (cookie_value cs)).
  { eapply (fold_cookies_id_only inputs boot); [|exact Hin|exact Hl].
    intros ? ? ? []. }
  split_and!; [exact Hid | | | ]; try (by apply id_only_no_payload).
  intros k Hk. by apply id_only_no_payload.
Qed.

Lemma cookie_carries_id_only_witness :
  let body := JObj [("username", JStr "alice"); ("password", JStr "x");
                    ("remember", JBool true)] in
  let inputs := [InRequest POST "/login" None "s1" body; InSettle;
                 InRequest GET "/secured" (Some "s1") "s2" JNull] in
  let resp := response (serve POST "/login" None "s1" body ∅) in
  let cs := {| cookie_value := JObj [("id", JStr "s1")];
               cookie_ttl := oneDay * 365 |} in
  In resp (sv_sent (run inputs))
  ∧ states resp !! cookie = Some cs
  ∧ prop (cookie_value cs) "auth" = JUndefined.
Proof.
  intros body inputs resp cs.
  assert (Hin : In resp (sv_sent (run inputs))) by (right; left; reflexivity).
  assert (Hl : states resp !! cookie = Some cs) by (vm_compute; reflexivity).
  destruct cookie_carries_id_only as (_ & H).
  split; [exact Hin|]. split; [exact Hl|].
  exact (proj1 (proj2 (H inputs resp cookie cs Hin Hl))).
Defined.

(** ** The flag in the states the server reaches *)

Lemma lookup_route_In m p r :
  lookup_route m p = Some r → In r routes ∧ method r = m ∧ path r = p.
Proof.
  unfold lookup_route. intros Hf.
  apply List.find_some in Hf as [Hin Hmatch]. split; [exact Hin|].
  apply andb_true_iff in Hmatch as [Hm Hp]. apply String.eqb_eq in Hp.
  split; [|exact Hp]. by destruct (method r), m.
Qed.

(** No handler stores session data without the flag. *)
Lemma handler_flag_ok r request :
  In r routes →
  flag_ok (yar_store (yar request)) →
  flag_ok (yar_store (handler r request).1).
Proof.
  intros Hr Hok.
  simpl in Hr.
  destruct Hr as [<-|[<-|[<-|[<-|[<-|[<-|[<-|[]]]]]]]]; simpl; try exact Hok.
  - unfold handler_login.
    destruct (payload request); simpl; try exact Hok;
      right; by rewrite lookupProp_assignProp_eq.
  - by left.
  - unfold handler_user. by destruct (getProp _ _).
  - unfold handler_user_update.
    destruct (getProp (payload request) "username") as [v|]; simpl; [|exact Hok].
    destruct Hok as [Hu | Ht].
    + unfold yar_get. rewrite Hu. simpl. by left.
    + unfold yar_get.
      destruct (lookupProp "data" (yar_store (yar request))) as [| | | | |props];
        try discriminate Ht.
      simpl. right. rewrite lookupProp_assignProp_eq. simpl.
      by rewrite lookupProp_assignProp_ne.
Qed.

Lemma resolve_flag_ok sid uuid c :
  cache_flag_ok c → flag_ok (yar_store (yar_resolve yarOptions sid uuid c)).
Proof.
  intros Hc. unfold yar_resolve, cache_get. cbn [yar_store].
  destruct (c !! _) as [e|] eqn:He; [by eapply Hc | by left].
Qed.

Lemma cache_set_flag_ok k v t c :
  cache_flag_ok c → flag_ok v → cache_flag_ok (cache_set k v t c).
Proof.
  intros Hc Hv k' e. unfold cache_set. rewrite lookup_insert. case_decide.
  - by intros [= <-].
  - apply Hc.
Qed.

Lemma cache_drop_flag_ok k c :
  cache_flag_ok c → cache_flag_ok (cache_drop k c).
Proof.
  intros Hc k' e. unfold cache_drop. rewrite lookup_delete. case_decide; [done|].
  apply Hc.
Qed.

Lemma serve_flag_ok m p sid uuid body c :
  cache_flag_ok c → cache_flag_ok (cache (serve m p sid uuid body c)).
Proof.
  intros Hc. unfold serve.
  pose proof (resolve_flag_ok sid uuid c Hc) as Hy0.
  destruct (lookup_route m p) as [r|] eqn:Hroute; [|exact Hc].
  apply lookup_route_In in Hroute as [Hr _].
  destruct (lifecycle_cases r sid uuid body c)
    as [(e & _ & ->) | (seen & _ & Hseen & ->)];
    rewrite finish_cache; cbn [yar]; cbv zeta.
  - destruct (yar_drop _); [apply cache_drop_flag_ok|]; by apply cache_set_flag_ok.
  - assert (Hy1 : flag_ok (yar_store (handler r seen).1)).
    { apply handler_flag_ok; [exact Hr | by rewrite Hseen]. }
    destruct (yar_drop _); [apply cache_drop_flag_ok|]; by apply cache_set_flag_ok.
Qed.

Lemma step_flag_ok s i :
  cache_flag_ok (sv_cache s) → cache_flag_ok (sv_cache (step s i)).
Proof.
  intros Hs. destruct i as [m p sid uuid body| |k]; simpl.
  - by apply serve_flag_ok.
  - destruct (sv_pending s) as [|j rest]; [done|]. cbn [sv_cache].
    unfold run_job. destruct (cache_get (fullId j) (sv_cache s)) as [e|] eqn:He;
      cbn [fst]; [|done].
    apply cache_set_flag_ok; [done|]. by eapply Hs.
  - by apply cache_drop_flag_ok.
Qed.

Lemma fold_flag_ok inputs s :
  cache_flag_ok (sv_cache s) → cache_flag_ok (sv_cache (fold_left step inputs s)).
Proof.
  revert s. induction inputs as [|i inputs IH]; intros s Hs; simpl; [done|].
  apply IH. by apply step_flag_ok.
Qed.

(** In every state the server reaches, the session a request resolves has a
    flag that is absent or the boolean [true]: the scheme never meets a flag
    of another type. *)
Lemma reachable_flag_boolean inputs sid uuid :
  let data := yar_get "data" (yar_resolve yarOptions sid uuid (sv_cache (run inputs))) in
  prop data "auth" = JUndefined ∨ ∃ b, prop data "auth" = JBool b.
Proof.
  intros data.
  assert (Hok : flag_ok (yar_store (yar_resolve yarOptions sid uuid
                                       (sv_cache (run inputs))))).
  { apply resolve_flag_ok. apply fold_flag_ok. intros k e. cbn [boot sv_cache].
    by rewrite lookup_empty. }
  destruct Hok as [Hu | Ht].
  - left. unfold data, yar_get. by rewrite Hu.
  - right. by exists true.
Qed.

(** * Further properties of the handlers and of the extension *)

(** ** When the extension throws, and what it leaves alone *)

(** X1. The extension throws exactly on a flagged route whose session has no
    data ([undefined] or [null]), where [.remember] cannot be read, and the
    only error it ever throws is the [TypeError]. *)
Theorem onPreResponse_throws_iff (request : Request) (h : gmap string CookieState) :
  (∀ e, onPreResponse request h = Throw e → e = TypeError)
  ∧ (onPreResponse request h = Throw TypeError
     ↔ yarring (settings request)
       ∧ (yar_get "data" (yar request) = JUndefined
          ∨ yar_get "data" (yar request) = JNull)).
Proof.
  unfold onPreResponse, yarring.
  destruct (truthy (prop (app (settings request)) "yarring")); simpl.
  - destruct (yar_get "data" (yar request)) as [| |b|n|s|props] eqn:Hd; simpl.
    1,2: split; [by intros e [= <-] | split; [intros _; split; auto | done]].
    all: split;
      [ intros e He; repeat case_match; discriminate He
      | split; [ intros He; repeat case_match; discriminate He
               | intros [_ [H|H]]; discriminate H ] ].
  - split; [done|]. split; [done | intros [H _]; discriminate H].
Qed.

(** X2. When the extension does not throw, it starts a chain exactly when
    the route is flagged and [remember] is truthy; the chain then targets the
    key of the session in the segment yar writes to, and the cookie it sets
    is named as yar's, holds the identifier alone and has the TTL of
    [oneDay * 365]. In every case the other cookies of the response are left
    as they were, and without a chain the toolkit is unchanged. *)
Theorem onPreResponse_frame (request : Request) (h h' : gmap string CookieState)
    (js : list Job) (ev : list Event) :
  onPreResponse request h = Ok (h', js, ev) →
  (∀ name, name ≠ cookie → h' !! name = h !! name)
  ∧ (js ≠ [] ↔ yarring (settings request) ∧ remembered (yar request) = true)
  ∧ (js = [] → h' = h ∧ ev = [])
  ∧ (js ≠ [] →
     js = [ {| fullId := (opt_cache_segment yarOptions, yar_id (yar request)) |} ]
     ∧ h' !! opt_name yarOptions
       = Some {| cookie_value := JObj [("id", JStr (yar_id (yar request)))];
                 cookie_ttl := 31536000000 |}).
Proof.
  unfold onPreResponse, yarring, remembered.
  destruct (truthy (prop (app (settings request)) "yarring")); simpl.
  - destruct (getProp (yar_get "data" (yar request)) "remember") as [v|e] eqn:Hg;
      simpl; [|done].
    assert (Hv : v = prop (yar_get "data" (yar request)) "remember").
    { revert Hg. destruct (yar_get "data" (yar request)); simpl; intros Hg;
        first [discriminate Hg | by injection Hg]. }
    rewrite <- Hv. destruct (truthy v).
    + intros [= <- <- <-]. split_and!.
      * intros name Hn. unfold h_state. by rewrite lookup_insert_ne.
      * split; [done | intros _; discriminate].
      * discriminate.
      * intros _. split; [reflexivity|]. unfold h_state.
        change (opt_name yarOptions) with cookie. by rewrite lookup_insert_eq.
    + intros [= <- <- <-]. split_and!; try done.
      split; [done | intros [_ H]; discriminate H].
  - intros [= <- <- <-]. split_and!; try done.
    split; [done | intros [H _]; discriminate H].
Qed.

Lemma onPreResponse_frame_witness :
  let request :=
    {| settings := options route_login; payload := JNull;
       yar := {| yar_id := "s1";
                 yar_store := [("data", JObj [("username", JStr "alice");
                                              ("remember", JBool true);
                                              ("auth", JBool true)])];
                 yar_drop := false |};
       auth := anonymous |} in
  let h := h_state "other" (JStr "x") 5 ∅ in
  let h' := h_state cookie (JObj [("id", JStr "s1")]) (oneDay * 365) h in
  h' !! "other" = h !! "other".
Proof.
  intros request h h'.
  destruct (onPreResponse_frame request h h'
              [ {| fullId := (segment, "s1") |} ] [ EvState cookie (oneDay * 365) ])
    as (Hother & _); [reflexivity |].
  apply Hother. discriminate.
Defined.

(** ** Edge behaviour of the handlers *)

Lemma getProp_Throw v k e :
  getProp v k = Throw e ↔ e = TypeError ∧ (v = JUndefined ∨ v = JNull).
Proof.
  destruct v; simpl; split; try done;
    try (intros [= <-]; auto); try (intros [_ [H|H]]; discriminate H);
    intros [-> _]; reflexivity.
Qed.

(** X3. The login handler throws exactly when the request has no body
    ([request.payload] is [null] or [undefined]): the error is the
    [TypeError] of the destructuring and the session is left as it was; with
    any other payload it answers with the redirect to [/]. *)
Theorem handler_login_throws_iff (request : Request) :
  ((handler_login request).2 = Throw TypeError
   ↔ payload request = JUndefined ∨ payload request = JNull)
  ∧ (∀ e, (handler_login request).2 = Throw e →
          e = TypeError ∧ (handler_login request).1 = yar request)
  ∧ ((handler_login request).2 = Ok (Redirect "/")
     ↔ payload request ≠ JUndefined ∧ payload request ≠ JNull)
  ∧ (∀ rep, (handler_login request).2 = Ok rep → rep = Redirect "/").
Proof.
  assert (Hcases : (payload request = JUndefined ∨ payload request = JNull)
                   ∨ (payload request ≠ JUndefined ∧ payload request ≠ JNull)).
  { destruct (payload request); auto; right; done. }
  destruct Hcases as [Hnull | [Hu Hn]].
  - assert (Hh : handler_login request = (yar request, Throw TypeError)).
    { unfold handler_login. by destruct Hnull as [-> | ->]. }
    rewrite Hh. cbn [fst snd]. split_and!.
    + done.
    + by intros e [= <-].
    + split; [done|]. intros [Hu Hn]. by destruct Hnull.
    + done.
  - rewrite (handler_login_body request Hu Hn). cbn [fst snd]. split_and!.
    + split; [done|]. intros [H | H]; done.
    + done.
    + done.
    + by intros rep [= <-].
Qed.

(** X4. A login with a body replaces the session data wholesale: the data
    stored has the three fields [username], [remember] and [auth] and no
    other, whatever the session held before; [remember] is stored as a
    boolean, true exactly when the value of the body is truthy; the other
    keys of the session and its identifier are untouched. *)
Theorem handler_login_overwrites (request : Request) :
  payload request ≠ JUndefined → payload request ≠ JNull →
  let y := (handler_login request).1 in
  let data := yar_get "data" y in
  (∀ k, k ≠ "username" → k ≠ "remember" → k ≠ "auth" → prop data k = JUndefined)
  ∧ prop data "username" = prop (payload request) "username"
  ∧ prop data "auth" = JBool true
  ∧ (∃ b, prop data "remember" = JBool b
          ∧ (b = true ↔ truthy (prop (payload request) "remember") = true))
  ∧ (∀ k, k ≠ "data" → yar_get k y = yar_get k (yar request))
  ∧ yar_id y = yar_id (yar request)
  ∧ yar_drop y = yar_drop (yar request).
Proof.
  intros Hu Hn y data. subst data y.
  rewrite (handler_login_body request Hu Hn). cbn [fst].
  rewrite yar_get_set_eq. split_and!.
  - intros k H1 H2 H3. unfold login_data. simpl.
    apply String.eqb_neq in H1, H2, H3. by rewrite H1, H2, H3.
  - reflexivity.
  - reflexivity.
  - eexists. split; [reflexivity|]. done.
  - intros k Hk. by apply yar_get_set_ne.
  - reflexivity.
  - reflexivity.
Qed.

Lemma handler_login_overwrites_witness :
  let request :=
    {| settings := options route_login;
       payload := JObj [("username", JStr "bob"); ("remember", JStr "on")];
       yar := {| yar_id := "s1";
                 yar_store := [("data", JObj [("username", JStr "alice");
                                              ("role", JStr "admin");
                                              ("auth", JBool true)])];
                 yar_drop := false |};
       auth := anonymous |} in
  prop (yar_get "data" (handler_login request).1) "role" = JUndefined
  ∧ prop (yar_get "data" (handler_login request).1) "username" = JStr "bob".
Proof.
  intros request.
  destruct (handler_login_overwrites request) as (Hnone & Hname & _);
    [discriminate | discriminate |].
  split; [apply Hnone; discriminate | exact Hname].
Defined.

(** X5. The update handler throws exactly when the request has no body or
    the session has no data; the error is a [TypeError] and the session is
    left as it was. Otherwise it answers with the redirect to [/]. *)
Theorem handler_user_update_throws_iff (request : Request) :
  ((handler_user_update request).2 = Throw TypeError
   ↔ (payload request = JUndefined ∨ payload request = JNull)
     ∨ (yar_get "data" (yar request) = JUndefined
        ∨ yar_get "data" (yar request) = JNull))
  ∧ (∀ e, (handler_user_update request).2 = Throw e →
          e = TypeError ∧ (handler_user_update request).1 = yar request)
  ∧ (∀ rep, (handler_user_update request).2 = Ok rep → rep = Redirect "/").
Proof.
  unfold handler_user_update.
  destruct (getProp (payload request) "username") as [v|e] eqn:Hp; simpl.
  - assert (Hbody : ¬ (payload request = JUndefined ∨ payload request = JNull)).
    { intros H. assert (Ht : getProp (payload request) "username" = Throw TypeError)
        by (apply getProp_Throw; auto). rewrite Hp in Ht. discriminate Ht. }
    destruct (setProp (yar_get "data" (yar request)) "username" v) as [d|e] eqn:Hs;
      simpl.
    + split_and!.
      * split; [done|]. intros [H | H]; [by destruct Hbody|].
        destruct H as [H|H]; rewrite H in Hs; discriminate Hs.
      * done.
      * by intros rep [= <-].
    + assert (He : e = TypeError
                   ∧ (yar_get "data" (yar request) = JUndefined
                      ∨ yar_get "data" (yar request) = JNull)).
      { revert Hs. destruct (yar_get "data" (yar request)); simpl; intros Hs;
          first [discriminate Hs | injection Hs as <-; auto]. }
      destruct He as [-> Hd]. split_and!.
      * split; [intros _; by right | done].
      * by intros e [= <-].
      * done.
  - apply getProp_Throw in Hp as [-> Hbody]. split_and!.
    + split; [intros _; by left | done].
    + by intros e [= <-].
    + done.
Qed.

Lemma assignProp_assignProp k x y props :
  assignProp k y (assignProp k x props) = assignProp k y props.
Proof.
  induction props as [|[k' v] rest IH]; simpl.
  - by rewrite String.eqb_refl.
  - destruct (String.eqb k k') eqn:E; simpl.
    + by rewrite String.eqb_refl.
    + by rewrite E, IH.
Qed.

Lemma yar_set_set k x y s :
  yar_set k y (yar_set k x s) = yar_set k y s.
Proof. unfold yar_set. simpl. by rewrite assignProp_assignProp. Qed.

Lemma handler_user_update_object request props :
  yar_get "data" (yar request) = JObj props →
  payload request ≠ JUndefined → payload request ≠ JNull →
  (handler_user_update request).1 =
    yar_set "data"
      (JObj (assignProp "username" (prop (payload request) "username") props))
      (yar request).
Proof.
  intros Hd Hu Hn. unfold handler_user_update.
  by rewrite getProp_Ok, Hd by done.
Qed.

(** X6. Successive profile updates of one session compose as the last one
    alone: the name of an earlier update leaves no trace, and repeating an
    update changes nothing more. *)
Theorem user_update_last_write_wins (request : Request) (body1 body2 : JSValue)
    (props : list (string * JSValue)) :
  yar_get "data" (yar request) = JObj props →
  body1 ≠ JUndefined → body1 ≠ JNull → body2 ≠ JUndefined → body2 ≠ JNull →
  let update body y := (handler_user_update (with_body request body y)).1 in
  update body2 (update body1 (yar request)) = update body2 (yar request)
  ∧ update body1 (update body1 (yar request)) = update body1 (yar request).
Proof.
  intros Hd Hu1 Hn1 Hu2 Hn2 update.
  assert (Hstep : ∀ b1 b2, b1 ≠ JUndefined → b1 ≠ JNull → b2 ≠ JUndefined → b2 ≠ JNull →
                    update b2 (update b1 (yar request)) = update b2 (yar request)).
  { intros b1 b2 H1 H2 H3 H4. unfold update.
    rewrite (handler_user_update_object (with_body request b1 (yar request)) props)
      by done.
    cbn [with_body payload yar].
    rewrite (handler_user_update_object (with_body request b2 (yar request)) props)
      by done.
    erewrite handler_user_update_object;
      [| cbn [with_body yar]; apply yar_get_set_eq | done | done].
    cbn [with_body payload yar].
    by rewrite assignProp_assignProp, yar_set_set. }
  split; by apply Hstep.
Qed.

Lemma user_update_last_write_wins_witness :
  let request :=
    {| settings := options route_user_update; payload := JNull;
       yar := {| yar_id := "s1";
                 yar_store := [("data", JObj [("username", JStr "alice");
                                              ("remember", JBool false);
                                              ("auth", JBool true)])];
                 yar_drop := false |};
       auth := anonymous |} in
  let update body y := (handler_user_update (with_body request body y)).1 in
  update (JObj [("username", JStr "carol")])
         (update (JObj [("username", JStr "bob")]) (yar request))
  = update (JObj [("username", JStr "carol")]) (yar request).
Proof.
  intros request update.
  apply (user_update_last_write_wins request
           (JObj [("username", JStr "bob")]) (JObj [("username", JStr "carol")])
           [("username", JStr "alice"); ("remember", JBool false);
            ("auth", JBool true)]);
    first [reflexivity | discriminate].
Defined.

(** ** What a settling chain does to the cache *)

Lemma run_job_lookup j c k :
  (run_job j c).1.1 !! k =
    (λ e, if bool_decide (k = fullId j) then extended e else e) <$> c !! k.
Proof.
  unfold run_job, cache_get, cache_set.
  destruct (c !! fullId j) as [e|] eqn:He; cbn [fst].
  - rewrite lookup_insert. case_decide as Hk.
    + subst k. rewrite He. simpl. by rewrite bool_decide_eq_true_2.
    + destruct (c !! k); simpl; [|done]. by rewrite bool_decide_eq_false_2.
  - destruct (c !! k) as [e|] eqn:Hk; simpl; [|done].
    rewrite bool_decide_eq_false_2; [done|]. intros ->. by rewrite He in Hk.
Qed.

(** After any number of chains have settled, an entry is the one that was
    there, extended when one of the chains had its key. *)
Lemma settle_lookup js c k :
  (settle js c).1 !! k =
    (λ e, if bool_decide (k ∈ map fullId js) then extended e else e) <$> c !! k.
Proof.
  revert c. induction js as [|j rest IH]; intros c.
  - simpl. by destruct (c !! k).
  - cbn [settle].
    destruct (run_job j c) as [[c1 res] ev1] eqn:Hj.
    destruct (settle rest c1) as [c2 ev2] eqn:Hs. cbn [fst].
    assert (Hc2 : c2 = (settle rest c1).1) by (by rewrite Hs).
    assert (Hc1 : c1 = (run_job j c).1.1) by (by rewrite Hj).
    rewrite Hc2, IH, Hc1, run_job_lookup.
    destruct (c !! k) as [e|]; simpl; [|done]. f_equal.
    destruct (bool_decide (k ∈ map fullId rest)) eqn:Hrest.
    + apply bool_decide_eq_true_1 in Hrest.
      rewrite (bool_decide_eq_true_2 (k ∈ fullId j :: map fullId rest))
        by (apply elem_of_cons; by right).
      by destruct (bool_decide (k = fullId j)).
    + apply bool_decide_eq_false_1 in Hrest.
      destruct (bool_decide (k = fullId j)) eqn:Hhead.
      * apply bool_decide_eq_true_1 in Hhead. subst k.
        by rewrite bool_decide_eq_true_2 by (apply elem_of_cons; by left).
      * apply bool_decide_eq_false_1 in Hhead.
        rewrite bool_decide_eq_false_2; [done|].
        intros Hin. apply elem_of_cons in Hin as [H|H]; done.
Qed.

Lemma settle_item js c k :
  item <$> (settle js c).1 !! k = item <$> c !! k.
Proof.
  rewrite settle_lookup. destruct (c !! k) as [e|]; simpl; [|done].
  by destruct (bool_decide _).
Qed.

(** ** What the pages show *)

(** On a route that is not flagged the reply is the failure of the
    rejection, or what the handler returned or threw. *)
Lemma lifecycle_reply_plain r sid uuid body c :
  ¬ yarring (options r) →
  reply (response (lifecycle r sid uuid body c)) =
    match auth_stage r sid uuid body c with
    | inr e => Fail e
    | inl seen =>
        match (handler r seen).2 with
        | Ok rep => rep
        | Throw e => Fail e
        end
    end.
Proof.
  intros Hy.
  destruct (lifecycle_cases r sid uuid body c)
    as [(e & -> & ->) | (seen & -> & _ & ->)]; by rewrite finish_plain.
Qed.

Lemma session_auth_spec y :
  let data := yar_get "data" y in
  (isAuthenticated (session_auth y) = true
   ↔ truthy data && truthy (prop data "auth") && truthy (prop data "username")
     = true)
  ∧ (isAuthenticated (session_auth y) = true →
     credentials (session_auth y) = prop data "username").
Proof.
  intros data. unfold session_auth. fold data. cbv zeta.
  by destruct (truthy data && truthy (prop data "auth")
               && truthy (prop data "username")).
Qed.

Lemma authenticate_Ok_iff request :
  (∃ identity, authenticate request = Ok identity)
  ↔ truthy (yar_get "data" (yar request))
    && truthy (prop (yar_get "data" (yar request)) "auth")
    && truthy (prop (yar_get "data" (yar request)) "username") = true.
Proof.
  rewrite authenticate_unfold. cbv zeta. unfold h_authenticated.
  destruct (truthy _ && truthy _); simpl;
    [destruct (truthy (prop _ "username"))|]; split; try done; eauto;
    by intros [? ?].
Qed.

(** X9. Whenever one of the four pages is rendered, its context tells the
    truth about the session: it shows the identifier and the data of the
    session, its [auth] is true exactly when the scheme authenticates the
    session, and then its credentials are the [username] of the data.
    The pages of GET /secured and GET /user are rendered for authenticated
    sessions only, and the [username] of the account page is the one of the
    data. *)
Theorem views_show_session (r : Route) (sid : option string) (uuid : string)
    (body : JSValue) (c : gmap CacheKey CacheEntry) (template : string)
    (context : ViewContext) :
  In r [route_root; route_login_page; route_secured; route_user] →
  reply (response (lifecycle r sid uuid body c)) = View template context →
  let y0 := yar_resolve yarOptions sid uuid c in
  let data := yar_get "data" y0 in
  ctx_yar context = (default uuid sid, data)
  ∧ (ctx_auth context = true
     ↔ ∃ identity,
         authenticate {| settings := options r; payload := body; yar := y0;
                         auth := anonymous |} = Ok identity)
  ∧ (ctx_auth context = true → ctx_credentials context = prop data "username")
  ∧ (r = route_secured ∨ r = route_user → ctx_auth context = true)
  ∧ (r = route_user → ctx_username context = prop data "username").
Proof.
  intros Hr Hreply y0 data.
  destruct (session_auth_spec y0) as [Hiff Hcred]. fold data in Hiff, Hcred.
  rewrite authenticate_Ok_iff. cbn [yar]. fold y0 data.
  simpl in Hr. destruct Hr as [<-|[<-|[<-|[<-|[]]]]];
    rewrite lifecycle_reply_plain in Hreply by (intros H; discriminate H).
  - rewrite (auth_stage_try route_root sid uuid body c eq_refl) in Hreply.
    injection Hreply as _ <-. cbn [outputHelper ctx_yar ctx_auth ctx_credentials auth yar].
    fold y0. split_and!; first [done | intros [H|H]; discriminate H].
  - rewrite (auth_stage_try route_login_page sid uuid body c eq_refl) in Hreply.
    injection Hreply as _ <-. cbn [outputHelper ctx_yar ctx_auth ctx_credentials auth yar].
    fold y0. split_and!; first [done | intros [H|H]; discriminate H].
  - rewrite (auth_stage_required route_secured sid uuid body c eq_refl) in Hreply.
    fold y0 in Hreply. cbv zeta in Hreply. fold data in Hreply.
    destruct (truthy data && truthy (prop data "auth")) eqn:Hok; [|discriminate Hreply].
    destruct (truthy (prop data "username")) eqn:Hname; [|discriminate Hreply].
    injection Hreply as _ <-. cbn [outputHelper ctx_yar ctx_auth ctx_credentials auth yar].
    assert (Ha : isAuthenticated (session_auth y0) = true) by (by apply Hiff).
    split_and!; first [done | intros H; discriminate H].
  - rewrite (auth_stage_required route_user sid uuid body c eq_refl) in Hreply.
    fold y0 in Hreply. cbv zeta in Hreply. fold data in Hreply.
    destruct (truthy data && truthy (prop data "auth")) eqn:Hok; [|discriminate Hreply].
    destruct (truthy (prop data "username")) eqn:Hname; [|discriminate Hreply].
    destruct (authenticated_data_is_object data Hok) as [props Hprops].
    cbn [handler route_user] in Hreply. unfold handler_user in Hreply.
    cbn [yar] in Hreply. fold data in Hreply. rewrite Hprops in Hreply.
    cbn [getProp snd] in Hreply.
    injection Hreply as _ <-.
    cbn [outputHelper ctx_yar ctx_auth ctx_credentials ctx_username auth yar].
    assert (Ha : isAuthenticated (session_auth y0) = true) by (by apply Hiff).
    fold data. rewrite Hprops in *. split_and!; try done.
Qed.

Lemma views_show_session_witness :
  let o := lifecycle route_root None "s1" JNull ∅ in
  ∃ context,
    reply (response o) = View "default" context
    ∧ ctx_yar context = ("s1", JUndefined).
Proof.
  intros o.
  set (context := {| ctx_page := "default page"; ctx_auth := false;
                     ctx_yar := ("s1", JUndefined); ctx_credentials := JUndefined;
                     ctx_username := JUndefined |}).
  exists context. split; [reflexivity|].
  destruct (views_show_session route_root None "s1" JNull ∅ "default" context)
    as (H & _); [simpl; tauto | reflexivity | exact H].
Defined.

(** X10. The handler of GET /user throws, with a [TypeError], exactly when
    the session has no data, and never changes the session; behind the
    required mode that case is out of reach: the reply to GET /user is the
    failure of the scheme (unauthorized, or the failed assertion on a falsy
    [username]) or the account page, never that [TypeError]. *)
Theorem user_page_guarded :
  (∀ request,
      ((handler_user request).2 = Throw TypeError
       ↔ yar_get "data" (yar request) = JUndefined
         ∨ yar_get "data" (yar request) = JNull)
      ∧ (handler_user request).1 = yar request)
  ∧ ∀ sid uuid body c,
      (reply (response (serve GET "/user" sid uuid body c))
         = Fail (Unauthorized "Please GTFO.")
       ∨ reply (response (serve GET "/user" sid uuid body c)) = Fail AssertionError
       ∨ ∃ context,
           reply (response (serve GET "/user" sid uuid body c)) = View "user" context)
      ∧ reply (response (serve GET "/user" sid uuid body c)) ≠ Fail TypeError.
Proof.
  split.
  - intros request. unfold handler_user.
    destruct (yar_get "data" (yar request)); simpl; split; try done;
      split; try done; try (intros [H|H]; discriminate H); auto.
  - intros sid uuid body c.
    rewrite (serve_matched GET "/user" route_user) by reflexivity.
    rewrite lifecycle_reply_plain by (intros H; discriminate H).
    rewrite (auth_stage_required route_user sid uuid body c eq_refl). cbv zeta.
    destruct (truthy _ && truthy _) eqn:Hok; [|split; [by left | done]].
    destruct (truthy (prop _ "username")) eqn:Hname;
      [|split; [right; by left | done]].
    destruct (authenticated_data_is_object _ Hok) as [props Hprops].
    cbn [handler route_user]. unfold handler_user. cbn [yar].
    rewrite Hprops. cbn [getProp snd]. split; [right; right; eauto | done].
Qed.

(** ** Login, then the account page *)

(** GET /user on a cache that holds, for the session of the cookie, data that
    is an object with a truthy [auth] and a truthy [username]. *)
Lemma serve_user_page id uuid body c store props :
  item <$> c !! (segment, id) = Some store →
  lookupProp "data" store = JObj props →
  truthy (lookupProp "auth" props) = true →
  truthy (lookupProp "username" props) = true →
  reply (response (serve GET "/user" (Some id) uuid body c)) =
    View "user"
      {| ctx_page := "account page";
         ctx_auth := true;
         ctx_yar := (id, JObj props);
         ctx_credentials := lookupProp "username" props;
         ctx_username := lookupProp "username" props |}.
Proof.
  intros Hitem Hdata Hauth Hname.
  assert (Hstore : yar_store (yar_resolve yarOptions (Some id) uuid c) = store).
  { rewrite resolve_store_cookie. unfold cache_get.
    destruct (c !! (segment, id)) as [e|]; [|discriminate Hitem].
    by injection Hitem. }
  assert (Hget : yar_get "data" (yar_resolve yarOptions (Some id) uuid c) = JObj props).
  { unfold yar_get. by rewrite Hstore. }
  rewrite (serve_matched GET "/user" route_user) by reflexivity.
  rewrite lifecycle_reply_plain by (intros H; discriminate H).
  rewrite (auth_stage_required route_user (Some id) uuid body c eq_refl). cbv zeta.
  rewrite Hget. simpl truthy. simpl prop. rewrite Hauth, Hname.
  cbn [andb handler route_user]. unfold handler_user.
  cbn [yar]. rewrite Hget. cbn [getProp snd prop].
  unfold outputHelper, session_auth. cbn [auth yar isAuthenticated credentials].
  rewrite Hget. simpl truthy. simpl prop. rewrite Hauth, Hname.
  reflexivity.
Qed.

(** X11. After a login with a body whose [username] is truthy, the account
    page of the same session, asked for before or after the chain of the
    login has settled, is rendered as authenticated, with the username of
    the login both as its [username] and as its credentials. *)
Theorem login_then_user_page (sid : option string) (uuid : string) (body : JSValue)
    (c : gmap CacheKey CacheEntry) (uuid' : string) (body' : JSValue)
    (c1 : gmap CacheKey CacheEntry) :
  body ≠ JUndefined → body ≠ JNull →
  truthy (prop body "username") = true →
  let id := default uuid sid in
  let o := serve POST "/login" sid uuid body c in
  c1 = cache o ∨ c1 = cache (complete o) →
  ∃ context,
    reply (response (serve GET "/user" (Some id) uuid' body' c1)) = View "user" context
    ∧ ctx_auth context = true
    ∧ ctx_username context = prop body "username"
    ∧ ctx_credentials context = prop body "username"
    ∧ ctx_yar context = (id, login_data body).
Proof.
  intros Hu Hn Hname id o Hc1.
  set (store := assignProp "data" (login_data body)
                  (yar_store (yar_resolve yarOptions sid uuid c))).
  assert (Ho : item <$> cache o !! (segment, id) = Some store).
  { subst o. rewrite (serve_login sid uuid body c Hu Hn). cbv zeta.
    rewrite finish_cache. cbn [yar yar_set yar_drop yar_id yar_resolve].
    unfold cache_set. by rewrite lookup_insert_eq. }
  assert (Hitem : item <$> c1 !! (segment, id) = Some store).
  { destruct Hc1 as [-> | ->]; [exact Ho|].
    unfold complete. destruct (settle (jobs o) (cache o)) as [c2 ev] eqn:Hs.
    cbn [cache]. replace c2 with (settle (jobs o) (cache o)).1 by (by rewrite Hs).
    by rewrite settle_item. }
  eexists. split.
  - apply (serve_user_page id uuid' body' c1 store
             [("username", prop body "username");
              ("remember", JBool (truthy (prop body "remember")));
              ("auth", JBool true)]).
    + exact Hitem.
    + unfold store. apply lookupProp_assignProp_eq.
    + reflexivity.
    + exact Hname.
  - by cbn.
Qed.

Lemma login_then_user_page_witness :
  let body := JObj [("username", JStr "alice"); ("password", JStr "x")] in
  let o := serve POST "/login" None "s1" body ∅ in
  ∃ context,
    reply (response (serve GET "/user" (Some "s1") "s2" JNull (cache o)))
      = View "user" context
    ∧ ctx_username context = JStr "alice".
Proof.
  intros body o.
  destruct (login_then_user_page None "s1" body ∅ "s2" JNull (cache o))
    as (context & H1 & _ & H2 & _);
    [discriminate | discriminate | reflexivity | by left |].
  exists context. split; [exact H1 | exact H2].
Defined.

(** ** The two TTLs and the cookie of a response *)

(** Only the logout handler schedules the deletion of the entry. *)
Lemma handler_drop_logout r request :
  In r routes →
  yar_drop (yar request) = false →
  yar_drop (handler r request).1 = true → r = route_logout.
Proof.
  intros Hr Hd.
  simpl in Hr.
  destruct Hr as [<-|[<-|[<-|[<-|[<-|[<-|[<-|[]]]]]]]]; simpl; rewrite ?Hd; try done.
  - unfold handler_login. destruct (payload request); simpl; by rewrite Hd.
  - unfold handler_user. destruct (getProp _ _); simpl; by rewrite Hd.
  - unfold handler_user_update.
    destruct (getProp (payload request) "username"); simpl; [|by rewrite Hd].
    destruct (setProp _ _ _); simpl; by rewrite Hd.
Qed.

(** The request the response stage works on carries the identifier the
    request came with, or the fresh one. *)
Lemma serve_finish m p r sid uuid body c :
  lookup_route m p = Some r →
  ∃ request rep ev,
    serve m p sid uuid body c = finish request rep ev c
    ∧ yar_id (yar request) = default uuid sid
    ∧ (yar_drop (yar request) = true → r = route_logout).
Proof.
  intros Hroute. rewrite (serve_matched m p r) by exact Hroute.
  apply lookup_route_In in Hroute as [Hr _].
  destruct (lifecycle_cases r sid uuid body c)
    as [(e & _ & ->) | (seen & _ & Hseen & ->)];
    eexists _, _, _; (split; [reflexivity|]); cbn [yar].
  - split; [reflexivity | intros H; discriminate H].
  - rewrite handler_keeps_id by exact Hr. rewrite Hseen.
    split; [reflexivity|].
    apply handler_drop_logout; [exact Hr | by rewrite Hseen].
Qed.

(** After the response stage and the settling of its chain, the entry of the
    session is gone when its deletion was scheduled, and has the TTL of the
    cookie otherwise. *)
Lemma finish_sync request rep ev c :
  let o := complete (finish request rep ev c) in
  let id := yar_id (yar request) in
  (cookie_ttl_of (response o) = Some oneDay
   ∨ cookie_ttl_of (response o) = Some (oneDay * 365))
  ∧ (if yar_drop (yar request)
     then cache_ttl id (cache o) = None
     else cache_ttl id (cache o) = cookie_ttl_of (response o)).
Proof.
  intros o id. subst o. unfold finish, yar_flush.
  change (opt_cache_segment yarOptions) with segment.
  change (opt_cache_expiresIn yarOptions) with oneDay.
  change (opt_name yarOptions) with cookie.
  change (opt_cookie_ttl yarOptions) with oneDay.
  fold id.
  destruct (yar_drop (yar request));
    (match goal with
     | |- context [onPreResponse ?rq ?h] =>
         destruct (onPreResponse_cases rq h) as [-> | [[e ->] | ->]]
     end); fold id; unfold complete; cbn [jobs cache response].
  - cbn [settle response cache]. split; [left; by eapply cookie_ttl_state|].
    unfold cache_ttl, cache_get, cache_drop. by rewrite lookup_delete_eq.
  - cbn [settle response cache]. split; [left; by eapply cookie_ttl_state|].
    unfold cache_ttl, cache_get, cache_drop. by rewrite lookup_delete_eq.
  - rewrite settle_missing
      by (unfold cache_get, cache_drop; apply lookup_delete_eq).
    cbn [response cache]. split; [right; by eapply cookie_ttl_state|].
    unfold cache_ttl, cache_get, cache_drop. by rewrite lookup_delete_eq.
  - cbn [settle response cache]. split; [left; by eapply cookie_ttl_state|].
    rewrite cache_ttl_set. symmetry. by eapply cookie_ttl_state.
  - cbn [settle response cache]. split; [left; by eapply cookie_ttl_state|].
    rewrite cache_ttl_set. symmetry. by eapply cookie_ttl_state.
  - erewrite settle_present
      by (unfold cache_get, cache_set; apply lookup_insert_eq).
    cbn [response cache item]. split; [right; by eapply cookie_ttl_state|].
    rewrite cache_ttl_set. symmetry. by eapply cookie_ttl_state.
Qed.

(** X12. After every completed request to a route of the table, the cookie
    of the response has the TTL of one day or of 365 days, and the cache
    entry of the session has the same TTL as the cookie; the one exception is
    the logout, after which there is no entry. *)
Theorem ttls_in_sync (m : Method) (p : string) (r : Route) (sid : option string)
    (uuid : string) (body : JSValue) (c : gmap CacheKey CacheEntry) :
  lookup_route m p = Some r →
  let o := complete (serve m p sid uuid body c) in
  let id := default uuid sid in
  (cookie_ttl_of (response o) = Some 86400000
   ∨ cookie_ttl_of (response o) = Some 31536000000)
  ∧ (cache_ttl id (cache o) = cookie_ttl_of (response o)
     ∨ (cache_ttl id (cache o) = None ∧ r = route_logout)).
Proof.
  intros Hroute o id. subst o.
  destruct (serve_finish m p r sid uuid body c Hroute)
    as (request & rep & ev & -> & Hid & Hd).
  destruct (finish_sync request rep ev c) as [Hcookie Hcache].
  rewrite Hid in Hcache. fold id in Hcache. split; [exact Hcookie|].
  destruct (yar_drop (yar request)); [right | by left].
  split; [exact Hcache | by apply Hd].
Qed.

Lemma ttls_in_sync_witness :
  let body := JObj [("username", JStr "alice"); ("remember", JBool true)] in
  let o := complete (serve POST "/login" None "s1" body ∅) in
  cache_ttl "s1" (cache o) = cookie_ttl_of (response o)
  ∨ (cache_ttl "s1" (cache o) = None ∧ route_login = route_logout).
Proof.
  intros body o.
  apply (ttls_in_sync POST "/login" route_login None "s1" body ∅). reflexivity.
Defined.

(** X13. Every cookie a response sets is the session cookie, it carries the
    very identifier the request came with (the fresh one when it came with
    none), and its TTL is one day or 365 days: no handler, the login
    included, ever moves a session to another identifier. *)
Theorem response_cookie (m : Method) (p : string) (sid : option string)
    (uuid : string) (body : JSValue) (c : gmap CacheKey CacheEntry)
    (name : string) (cs : CookieState) :
  states (response (serve m p sid uuid body c)) !! name = Some cs →
  name = "my-yar-cookie"
  ∧ cookie_value cs = JObj [("id", JStr (default uuid sid))]
  ∧ (cookie_ttl cs = 86400000 ∨ cookie_ttl cs = 31536000000).
Proof.
  destruct (lookup_route m p) as [r|] eqn:Hroute;
    [| unfold serve; rewrite Hroute; cbn [unmatched response states];
       by rewrite lookup_empty ].
  destruct (serve_finish m p r sid uuid body c Hroute)
    as (request & rep & ev & -> & Hid & _).
  intros Hl. pose proof (finish_states _ _ _ _ _ _ Hl) as Hv. rewrite Hid in Hv.
  revert Hl. unfold finish, yar_flush.
  change (opt_name yarOptions) with cookie.
  change (opt_cookie_ttl yarOptions) with oneDay.
  assert (Hflush : ∀ v,
    h_state cookie v oneDay ∅ !! name = Some cs →
    name = cookie ∧ (cookie_ttl cs = 86400000 ∨ cookie_ttl cs = 31536000000)).
  { intros v. unfold h_state. rewrite lookup_insert. case_decide.
    - intros [= <-]. split; [done | by left].
    - by rewrite lookup_empty. }
  destruct (yar_drop (yar request));
    (match goal with
     | |- context [onPreResponse ?rq ?h] =>
         destruct (onPreResponse_cases rq h) as [-> | [[e ->] | ->]]
     end); cbn [response states]; intros Hl;
    try (destruct (Hflush _ Hl) as [-> Ht]; by split_and!).
  all: revert Hl; unfold h_state at 1; rewrite lookup_insert; case_decide;
    [ intros [= <-]; split_and!; [done | done | by right]
    | intros Hl; destruct (Hflush _ Hl) as [-> Ht]; by split_and! ].
Qed.

Lemma response_cookie_witness :
  let body := JObj [("username", JStr "alice"); ("remember", JBool true)] in
  let cs := {| cookie_value := JObj [("id", JStr "fixed")];
               cookie_ttl := oneDay * 365 |} in
  states (response (serve POST "/login" (Some "fixed") "s2" body ∅)) !! cookie = Some cs
  ∧ cookie_value cs = JObj [("id", JStr "fixed")].
Proof.
  intros body cs.
  assert (Hl : states (response (serve POST "/login" (Some "fixed") "s2" body ∅))
                 !! cookie = Some cs) by (vm_compute; reflexivity).
  split; [exact Hl|].
  destruct (response_cookie POST "/login" (Some "fixed") "s2" body ∅ cookie cs Hl)
    as (_ & Hv & _). exact Hv.
Defined.

(** ** Invariants of the cache *)

Lemma serve_cache m p sid uuid body c :
  cache (serve m p sid uuid body c) = c
  ∨ ∃ store,
      cache (serve m p sid uuid body c)
        = cache_set (segment, default uuid sid) store oneDay c
      ∨ cache (serve m p sid uuid body c)
        = cache_drop (segment, default uuid sid)
            (cache_set (segment, default uuid sid) store oneDay c).
Proof.
  destruct (lookup_route m p) as [r|] eqn:Hroute;
    [| left; unfold serve; by rewrite Hroute ].
  right.
  destruct (serve_finish m p r sid uuid body c Hroute)
    as (request & rep & ev & -> & Hid & _).
  rewrite finish_cache, Hid. cbv zeta. exists (yar_store (yar request)).
  destruct (yar_drop (yar request)); auto.
Qed.

Lemma step_ttl_ok s i :
  cache_ttl_ok (sv_cache s) → cache_ttl_ok (sv_cache (step s i)).
Proof.
  intros Hs. destruct i as [m p sid uuid body| |k0]; simpl.
  - destruct (serve_cache m p sid uuid body (sv_cache s))
      as [-> | [store [-> | ->]]]; [exact Hs | |];
      intros k e; unfold cache_drop, cache_set.
    + rewrite lookup_insert. case_decide; [intros [= <-]; by left | apply Hs].
    + rewrite lookup_delete. case_decide; [done|].
      rewrite lookup_insert. case_decide; [intros [= <-]; by left | apply Hs].
  - destruct (sv_pending s) as [|j rest]; [done|]. cbn [sv_cache].
    intros k e. rewrite run_job_lookup.
    destruct (sv_cache s !! k) as [e0|] eqn:He0; simpl; [|done].
    destruct (bool_decide (k = fullId j)).
    + intros [= <-]. by right.
    + intros [= <-]. by eapply Hs.
  - intros k e. unfold cache_drop. rewrite lookup_delete. case_decide; [done|].
    apply Hs.
Qed.

(** X14. In every state the server reaches, by requests, settling chains
    and expiring entries in any order, every cache entry has the TTL of
    86,400,000 ms or of 31,536,000,000 ms. *)
Theorem reachable_ttls (inputs : list Input) (k : CacheKey) (e : CacheEntry) :
  sv_cache (run inputs) !! k = Some e →
  ttl e = 86400000 ∨ ttl e = 31536000000.
Proof.
  assert (H : ∀ s, cache_ttl_ok (sv_cache s) →
                   cache_ttl_ok (sv_cache (fold_left step inputs s))).
  { induction inputs as [|i rest IH]; intros s Hs; simpl; [done|].
    apply IH. by apply step_ttl_ok. }
  apply (H boot). intros k' e'. cbn [boot sv_cache]. by rewrite lookup_empty.
Qed.

Lemma reachable_ttls_witness :
  let body := JObj [("username", JStr "alice"); ("remember", JBool true)] in
  let inputs := [InRequest POST "/login" None "s1" body; InSettle] in
  ∃ e, sv_cache (run inputs) !! (segment, "s1") = Some e
       ∧ (ttl e = 86400000 ∨ ttl e = 31536000000).
Proof.
  intros body inputs. eexists. split; [vm_compute; reflexivity|].
  eapply (reachable_ttls inputs (segment, "s1")). vm_compute. reflexivity.
Defined.

(** X15. In every state the server reaches, a session has data exactly when
    that data carries [auth: true]: the handlers never store data without
    the flag. The scheme authenticates the session exactly when it has data
    and the [username] of the data is truthy. *)
Theorem reachable_data_has_flag (inputs : list Input)
    (sid : option string) (uuid : string) (s : RouteSettings) (body : JSValue) :
  let y := yar_resolve yarOptions sid uuid (sv_cache (run inputs)) in
  let data := yar_get "data" y in
  (data ≠ JUndefined ↔ prop data "auth" = JBool true)
  ∧ ((∃ identity,
        authenticate {| settings := s; payload := body; yar := y; auth := anonymous |}
          = Ok identity)
     ↔ data ≠ JUndefined ∧ truthy (prop data "username") = true).
Proof.
  intros y data. rewrite authenticate_Ok_iff. cbn [yar]. fold data.
  assert (Hok : flag_ok (yar_store y)).
  { apply resolve_flag_ok. apply fold_flag_ok. intros k e. cbn [boot sv_cache].
    by rewrite lookup_empty. }
  unfold flag_ok in Hok. fold (yar_get "data" y) in Hok. fold data in Hok.
  assert (Hflag : data ≠ JUndefined ↔ prop data "auth" = JBool true).
  { split.
    - intros Hd. by destruct Hok as [Hu | Ht].
    - intros Ht Hd. rewrite Hd in Ht. discriminate Ht. }
  split; [exact Hflag|]. split.
  - intros Hc. apply andb_true_iff in Hc as [Hc Hname].
    apply andb_true_iff in Hc as [Hd _]. split; [|exact Hname].
    intros Hu. rewrite Hu in Hd. discriminate Hd.
  - intros [Hd Hname]. apply Hflag in Hd as Ht.
    destruct data; try discriminate Ht. simpl in *. by rewrite Ht, Hname.
Qed.

(** ** Which requests can extend a TTL *)

Lemma lookup_route_yarring m p r :
  lookup_route m p = Some r → yarring (options r) →
  m = POST ∧ (p = "/login" ∨ p = "/user").
Proof.
  intros Hroute Hy. apply lookup_route_In in Hroute as (Hin & <- & <-).
  simpl in Hin.
  destruct Hin as [<-|[<-|[<-|[<-|[<-|[<-|[<-|[]]]]]]]]; try discriminate Hy;
    simpl; auto.
Qed.

(** X16. Only POST /login and POST /user can extend a TTL: a request to any
    other route, known or not, starts no chain and never gets the cookie
    with the extended TTL. *)
Theorem only_flagged_routes_extend (m : Method) (p : string) (sid : option string)
    (uuid : string) (body : JSValue) (c : gmap CacheKey CacheEntry) :
  jobs (serve m p sid uuid body c) ≠ []
  ∨ cookie_ttl_of (response (serve m p sid uuid body c)) = Some 31536000000 →
  m = POST ∧ (p = "/login" ∨ p = "/user").
Proof.
  intros H.
  destruct (lookup_route m p) as [r|] eqn:Hroute.
  - apply (lookup_route_yarring m p r Hroute).
    destruct (decide (yarring (options r))) as [Hy | Hn]; [done|].
    exfalso. revert H. rewrite (serve_matched m p r) by exact Hroute.
    destruct (lifecycle_cases r sid uuid body c)
      as [(e & _ & ->) | (seen & _ & _ & ->)];
      rewrite finish_plain by exact Hn; cbn [jobs response];
      (intros [H | H]; [done|]); revert H; unfold yar_flush; cbn [yar];
      destruct (yar_drop _); cbn [fst snd];
      (erewrite cookie_ttl_state by reflexivity); discriminate.
  - exfalso. revert H. unfold serve. rewrite Hroute.
    cbn [unmatched jobs response]. intros [H | H]; [done|].
    unfold cookie_ttl_of in H. cbn [states] in H. by rewrite lookup_empty in H.
Qed.

Lemma only_flagged_routes_extend_witness :
  let body := JObj [("username", JStr "alice"); ("remember", JBool true)] in
  jobs (serve POST "/login" None "s1" body ∅) ≠ []
  ∧ POST = POST ∧ ("/login" = "/login" ∨ "/login" = "/user").
Proof.
  intros body.
  assert (Hjobs : jobs (serve POST "/login" None "s1" body ∅) ≠ []).
  { intros H. vm_compute in H. discriminate H. }
  split; [exact Hjobs|].
  apply (only_flagged_routes_extend POST "/login" None "s1" body ∅).
  left. exact Hjobs.
Defined.
